(** * BiggerNumbers: the spending endpoints of [backend/main.py]

    A shallow embedding of the three request handlers of the FastAPI
    application and of the aggregation that [get_spending] performs on the
    transaction list returned by the provider.

    - Amounts are Python floats, that is IEEE 754 binary64 values.  They are
      modelled with the Standard Library's executable specification of
      binary floating point ([SpecFloat], precision 53, [emax] 1024).
    - Dates are [datetime.date] values, modelled by their proleptic
      Gregorian ordinal ([date.toordinal]); comparison of dates is comparison
      of ordinals and subtracting [timedelta(days=n)] subtracts [n].
    - Exceptions are modelled with a sum type: a handler either returns a
      body or raises an [HTTPException].  The handlers are given twice: on
      typed answers of the provider, where only the call of the provider can
      fail, and, in [Dynamic], on answers as Python values, where indexing,
      comparing and adding them and the date arithmetic can fail as well.
    - The builtin [sum] depends on the interpreter: [sum] is the plain
      accumulation of CPython up to 3.11, [compensated_sum] the compensated
      one of CPython 3.12 and later. *)

From Stdlib Require Import ZArith List Bool String Lia Permutation.
From Stdlib Require Import Floats.SpecFloat.
Import ListNotations.

Local Open Scope Z_scope.

(** ** Python floats *)

Module PyFloat.

Definition prec : Z := 53.
Definition emax : Z := 1024.

Definition float : Type := spec_float.

Definition zero : float := S754_zero false.

Definition add (x y : float) : float := SFadd prec emax x y.
Definition sub (x y : float) : float := SFsub prec emax x y.
Definition abs (x : float) : float := SFabs x.
Definition ltb (x y : float) : bool := SFltb x y.
Definition leb (x y : float) : bool := SFleb x y.
Definition eqb (x y : float) : bool := SFeqb x y.

(** [float(n)] for a Python integer [n]: the nearest binary64. *)
Definition of_Z (n : Z) : float := binary_normalize prec emax n 0 false.

(** The binary64 nearest to the quotient [n / d] of two positive integers,
    ties to even, with sign [s]: the correctly rounded conversion that
    [strtod] performs on a decimal numeral. *)
Definition nearest (s : bool) (n d : Z) : float :=
  let '(mz, ez, lz) := SFdiv_core_binary prec emax n 0 d 0 in
  binary_round_aux prec emax s mz ez lz.

(** The float denoted by the decimal literal [n * 10^-k]. *)
Definition of_decimal (n : Z) (k : Z) : float :=
  match n with
  | Z0 => zero
  | Zpos p => nearest false (Zpos p) (10 ^ k)
  | Zneg p => nearest true (Zpos p) (10 ^ k)
  end.

(** Quotient [a / b] rounded to the nearest integer, ties to even. *)
Definition div_half_even (a b : Z) : Z :=
  let q := a / b in
  match 2 * (a mod b) ?= b with
  | Lt => q
  | Eq => if Z.even q then q else q + 1
  | Gt => q + 1
  end.

(** [hundredths m e] is the exact value [m * 2^e * 100] rounded to the
    nearest integer, ties to even: the digits that [dtoa] produces in
    mode 3 with two digits after the point. *)
Definition hundredths (m : positive) (e : Z) : Z :=
  match e with
  | Zneg p => div_half_even (100 * Zpos m) (2 ^ Zpos p)
  | _ => 100 * Zpos m * 2 ^ e
  end.

(** [round(x, 2)] on a float ([float.__round__] with [ndigits = 2]):
    infinities and NaN round to themselves; a finite value is printed with
    two correctly rounded digits after the point and read back. *)
Definition round2 (x : float) : float :=
  match x with
  | S754_finite s m e =>
      match hundredths m e with
      | Zpos q => nearest s (Zpos q) 100
      | _ => S754_zero s
      end
  | _ => x
  end.

End PyFloat.

(** ** Python numbers: [sum] starts from the integer [0] *)

Inductive number : Type :=
| Int (z : Z)
| Float (f : PyFloat.float).

Definition to_float (x : number) : PyFloat.float :=
  match x with
  | Int z => PyFloat.of_Z z
  | Float f => f
  end.

(** [a + b]: an integer operand is converted to float when the other one
    is a float. *)
Definition py_add (a b : number) : number :=
  match a, b with
  | Int x, Int y => Int (x + y)
  | _, _ => Float (PyFloat.add (to_float a) (to_float b))
  end.

(** The builtin [sum] as CPython implements it up to version 3.11: start
    from the integer [0] and add the items from left to right; once a float
    has been met every addition is a plain binary64 addition.  The
    repository pins no interpreter version; from CPython 3.12 on the builtin
    adds floats with a compensated summation, modelled by [compensated_sum]
    below.  Every statement about [sum], and about [spending] which is built
    on it, is a statement about the handler run by CPython 3.11 or earlier,
    unless it says otherwise. *)
Definition sum (items : list number) : number :=
  fold_left py_add items (Int 0).

(** The builtin [sum] of CPython 3.12 and later on floats
    ([Python/bltinmodule.c]).  The running total is a pair [(hi, lo)] of the
    rounded sum and of the accumulated rounding errors; [cs_add] is one step
    of the float loop:
    [t = hi + x; if fabs(hi) >= fabs(x): lo += (hi - t) + x
     else: lo += (x - t) + hi; hi = t]. *)
Definition cs_add (total : PyFloat.float * PyFloat.float) (x : PyFloat.float)
  : PyFloat.float * PyFloat.float :=
  let '(hi, lo) := total in
  let t := PyFloat.add hi x in
  if PyFloat.leb (PyFloat.abs x) (PyFloat.abs hi)
  then (t, PyFloat.add lo (PyFloat.add (PyFloat.sub hi t) x))
  else (t, PyFloat.add lo (PyFloat.add (PyFloat.sub x t) hi)).

(** The end of the float loop: the correction is added when it is neither
    zero nor an infinity or NaN ([if (c && isfinite(c)) f_result += c]). *)
Definition cs_to_double (total : PyFloat.float * PyFloat.float)
  : PyFloat.float :=
  let '(hi, lo) := total in
  match lo with
  | S754_finite _ _ _ => PyFloat.add hi lo
  | _ => hi
  end.

(** [sum] of a sequence of floats in CPython 3.12 and later: the empty sum is
    the integer [0]; the first float is added to the integer [0], which gives
    the initial [hi], and the remaining ones go through the float loop. *)
Definition compensated_sum (items : list PyFloat.float) : number :=
  match items with
  | [] => Int 0
  | x :: rest =>
      Float
        (cs_to_double
           (fold_left cs_add rest
              (PyFloat.add (PyFloat.of_Z 0) x, PyFloat.zero)))
  end.

(** The builtin [round(x, 2)]: an integer is returned unchanged. *)
Definition round (x : number) : number :=
  match x with
  | Int z => Int z
  | Float f => Float (PyFloat.round2 f)
  end.

(** [x > 0] for a float [x]; false on NaN. *)
Definition gt0 (x : PyFloat.float) : bool := PyFloat.ltb PyFloat.zero x.

(** [x <= 0] for a float [x]; false on NaN. *)
Definition le0 (x : PyFloat.float) : bool := PyFloat.leb x PyFloat.zero.

(** ** Dates

    A [datetime.date] is represented by its ordinal, the number of days
    since 0001-01-01 plus one.  The clock and the provider only produce
    dates far from the ends of the supported range, so the range checks of
    [datetime] are left out. *)

Definition date : Type := Z.

(** Days before the first day of [month] in a year, as [datetime]
    computes it. *)
Definition is_leap (y : Z) : bool :=
  (y mod 4 =? 0) && (negb (y mod 100 =? 0) || (y mod 400 =? 0)).

Definition days_before_month (y m : Z) : Z :=
  nth (Z.to_nat (m - 1)) [0; 31; 59; 90; 120; 151; 181; 212; 243; 273; 304; 334] 0
  + (if (2 <? m) && is_leap y then 1 else 0).

Definition days_before_year (y : Z) : Z :=
  let y' := y - 1 in y' * 365 + y' / 4 - y' / 100 + y' / 400.

(** [date(y, m, d).toordinal()] *)
Definition ymd (y m d : Z) : date :=
  days_before_year y + days_before_month y m + d.

(** [d - timedelta(days=n)] *)
Definition minus_days (d : date) (n : Z) : date := d - n.

(** ** Transactions and the response model

    Of a transaction the handler reads [t['amount']], which the provider's
    client deserialises as a float, and [t['date']], a [datetime.date]. *)

Record Transaction : Type := {
  amount : PyFloat.float;
  date_of : date
}.

Record SpendingResponse : Type := {
  daily : PyFloat.float;
  weekly : PyFloat.float;
  monthly : PyFloat.float
}.

(** ** The aggregation of [get_spending] *)

Section Aggregation.

Variable today : date.
Variable transactions : list Transaction.

Definition spending_transactions : list Transaction :=
  filter (fun t => gt0 (amount t)) transactions.

Definition yesterday : date := minus_days today 1.
Definition week_ago : date := minus_days today 7.

(** The amounts that enter each of the three sums, in order. *)
Definition daily_terms : list PyFloat.float :=
  map amount (filter (fun t => yesterday <=? date_of t) spending_transactions).

Definition weekly_terms : list PyFloat.float :=
  map amount (filter (fun t => week_ago <=? date_of t) spending_transactions).

Definition monthly_terms : list PyFloat.float :=
  map amount spending_transactions.

Definition daily_sum : number := sum (map Float daily_terms).
Definition weekly_sum : number := sum (map Float weekly_terms).
Definition monthly_sum : number := sum (map Float monthly_terms).

(** The response built at the end of the handler; the float fields of the
    model convert an integer result. *)
Definition spending : SpendingResponse :=
  {| daily := to_float (round daily_sum);
     weekly := to_float (round weekly_sum);
     monthly := to_float (round monthly_sum) |}.

(** The same response when the interpreter is CPython 3.12 or later. *)
Definition spending_compensated : SpendingResponse :=
  {| daily := to_float (round (compensated_sum daily_terms));
     weekly := to_float (round (compensated_sum weekly_terms));
     monthly := to_float (round (compensated_sum monthly_terms)) |}.

End Aggregation.

(** The concrete scenario of the specification. *)
Definition example_today : date := ymd 2024 6 15.

Definition example_transactions : list Transaction :=
  [ {| amount := PyFloat.of_decimal 10505 3; date_of := ymd 2024 6 15 |};
    {| amount := PyFloat.of_decimal 2000 2; date_of := ymd 2024 6 10 |};
    {| amount := PyFloat.of_decimal (-500) 2; date_of := ymd 2024 6 14 |};
    {| amount := PyFloat.of_decimal 10000 2; date_of := ymd 2024 5 20 |} ].

(** ** The request handlers *)

Record HTTPException : Type := {
  status_code : Z;
  detail : string
}.

(** A computation that may raise: the body of a [try] raises a Python
    exception, a handler raises an [HTTPException]. *)
Inductive result (E A : Type) : Type :=
| Raised (e : E)
| Returned (a : A).

Arguments Raised {E A} e.
Arguments Returned {E A} a.

Definition bind {E A B : Type} (c : result E A) (k : A -> result E B)
  : result E B :=
  match c with
  | Raised e => Raised e
  | Returned a => k a
  end.

Notation "x <- c ;; k" := (bind c (fun x => k))
  (at level 61, c at next level, right associativity).

(** [try: body  except Exception as e: handler e] *)
Definition try_except {E F A : Type} (body : result E A)
  (handler : E -> result F A) : result F A :=
  match body with
  | Raised e => handler e
  | Returned a => Returned a
  end.

Record PublicTokenRequest : Type := { public_token : string }.

Record LinkTokenCreateRequest : Type := {
  products : list string;
  client_name : string;
  country_codes : list string;
  language : string;
  user : string
}.

Record ItemPublicTokenExchangeRequest : Type := {
  exchange_public_token_field : string
}.

Record TransactionsGetRequest : Type := {
  access_token_field : string;
  start_date : date;
  end_date : date
}.

Record LinkTokenCreateResponse : Type := { link_token : string }.
Record ItemPublicTokenExchangeResponse : Type := { access_token : string }.
Record TransactionsGetResponse : Type := { transactions_field : list Transaction }.

(** The provider's client: each call returns a response or raises. *)
Record PlaidApi (exn : Type) : Type := {
  link_token_create :
    LinkTokenCreateRequest -> result exn LinkTokenCreateResponse;
  item_public_token_exchange :
    ItemPublicTokenExchangeRequest -> result exn ItemPublicTokenExchangeResponse;
  transactions_get :
    TransactionsGetRequest -> result exn TransactionsGetResponse
}.

Arguments link_token_create {exn} _ _.
Arguments item_public_token_exchange {exn} _ _.
Arguments transactions_get {exn} _ _.

(** The bodies returned by the three endpoints. *)
Inductive body : Type :=
| LinkTokenBody (link_token : string)
| AccessTokenBody (access_token : string)
| SpendingBody (r : SpendingResponse).

Section Handlers.

(** Python exceptions and [str(e)]. *)
Variable exn : Type.
Variable str : exn -> string.
Variable client : PlaidApi exn.

Definition create_link_token : result HTTPException body :=
  try_except
    (let request :=
       {| products := ["transactions"%string];
          client_name := "BiggerNumbers"%string;
          country_codes := ["GB"%string];
          language := "en"%string;
          user := "user-id"%string |} in
     response <- link_token_create client request ;;
     Returned (LinkTokenBody (link_token response)))
    (fun e =>
       Raised {| status_code := 400;
                 detail := "Error creating link token: " ++ str e |}).

Definition exchange_public_token (token_request : PublicTokenRequest)
  : result HTTPException body :=
  try_except
    (let request :=
       {| exchange_public_token_field := public_token token_request |} in
     response <- item_public_token_exchange client request ;;
     Returned (AccessTokenBody (access_token response)))
    (fun e =>
       Raised {| status_code := 400;
                 detail := "Error exchanging token: " ++ str e |}).

(** [now_1] and [now_2] are the two readings of [datetime.now().date()]. *)
Definition get_spending (now_1 now_2 : date) (access_token : string)
  : result HTTPException body :=
  try_except
    (let end_date := now_1 in
     let start_date := minus_days end_date 30 in
     let request :=
       {| access_token_field := access_token;
          start_date := start_date;
          end_date := end_date |} in
     response <- transactions_get client request ;;
     let transactions := transactions_field response in
     let today := now_2 in
     Returned (SpendingBody (spending today transactions)))
    (fun e =>
       Raised {| status_code := 400;
                 detail := "Error fetching spending: " ++ str e |}).

End Handlers.

Arguments create_link_token {exn} str client.
Arguments exchange_public_token {exn} str client token_request.
Arguments get_spending {exn} str client now_1 now_2 access_token.

(** The request for a link token, the same for every caller. *)
Definition link_token_request : LinkTokenCreateRequest :=
  {| products := ["transactions"%string];
     client_name := "BiggerNumbers"%string;
     country_codes := ["GB"%string];
     language := "en"%string;
     user := "user-id"%string |}.

(** ** The handlers on the answers as Python sees them

    The handlers above read an answer of the provider through typed
    records, so that only the call of the provider can fail.  In the source
    the answer is a Python object that the handler indexes and compares
    inside the same [try] block, and each of these steps can raise as well:
    [response['transactions']] and [t['amount']] raise [KeyError] on a
    missing key, [t['amount'] > 0] and [t['date'] >= yesterday] raise
    [TypeError] on a value of another type, and subtracting a [timedelta]
    from a date raises [OverflowError] below [date.min].  This module keeps
    every one of these failure points.  [except Exception] catches every
    exception that a handler body can raise here; [BaseException]s that are
    not [Exception]s (an interrupt, a cancelled task) are no failures of a
    request and are left out, and so is what the framework does before it
    calls a handler (validation of the parameters) and after the handler has
    returned (serialisation of the body). *)

Module Dynamic.

(** The values that occur in an answer. *)
#[warnings="-register-all"] Inductive value : Type :=
| VNone
| VFloat (f : PyFloat.float)
| VDate (d : date)
| VStr (s : string)
| VList (items : list value)
| VDict (items : list (string * value)).

(** The exceptions that the body of a handler can raise: those of the
    provider's client, of type [exn], and those of the interpreter. *)
Inductive exception (exn : Type) : Type :=
| ProviderError (e : exn)
| KeyError (key : string)
| TypeError (message : string)
| OverflowError (message : string).

Arguments ProviderError {exn} e.
Arguments KeyError {exn} key.
Arguments TypeError {exn} message.
Arguments OverflowError {exn} message.

(** [type(v).__name__], with the module for a date, as error messages
    print it. *)
Definition type_name (v : value) : string :=
  match v with
  | VNone => "NoneType"
  | VFloat _ => "float"
  | VDate _ => "datetime.date"
  | VStr _ => "str"
  | VList _ => "list"
  | VDict _ => "dict"
  end.

Fixpoint lookup (key : string) (items : list (string * value))
  : option value :=
  match items with
  | [] => None
  | (k, v) :: rest => if String.eqb k key then Some v else lookup key rest
  end.

(** The provider's client: each call returns an answer or raises. *)
Record PlaidApi (exn : Type) : Type := {
  link_token_create : LinkTokenCreateRequest -> result exn value;
  item_public_token_exchange :
    ItemPublicTokenExchangeRequest -> result exn value;
  transactions_get : TransactionsGetRequest -> result exn value
}.

Arguments link_token_create {exn} _ _.
Arguments item_public_token_exchange {exn} _ _.
Arguments transactions_get {exn} _ _.

(** The bodies returned by the three endpoints. *)
Inductive body : Type :=
| LinkTokenBody (link_token : value)
| AccessTokenBody (access_token : value)
| SpendingBody (r : SpendingResponse).

(** [date.max.toordinal()] *)
Definition max_ordinal : Z := 3652059.

Section Handlers.

Variable exn : Type.
Variable str : exn -> string.
Variable client : PlaidApi exn.

(** [str(e)]; the text of a [KeyError] is the [repr] of the key. *)
Definition str_exception (e : exception exn) : string :=
  match e with
  | ProviderError e => str e
  | KeyError key => "'" ++ key ++ "'"
  | TypeError message => message
  | OverflowError message => message
  end.

(** A call of the provider inside a handler. *)
Definition call (c : result exn value) : result (exception exn) value :=
  match c with
  | Raised e => Raised (ProviderError e)
  | Returned v => Returned v
  end.

(** [v[key]] for a string [key]. *)
Definition getitem (v : value) (key : string)
  : result (exception exn) value :=
  match v with
  | VDict items =>
      match lookup key items with
      | Some x => Returned x
      | None => Raised (KeyError key)
      end
  | VStr _ => Raised (TypeError "string indices must be integers, not 'str'")
  | VList _ =>
      Raised (TypeError "list indices must be integers or slices, not str")
  | _ => Raised (TypeError ("'" ++ type_name v ++ "' object is not subscriptable"))
  end.

(** The items of [for t in v]. *)
Definition iterate (v : value) : result (exception exn) (list value) :=
  match v with
  | VList items => Returned items
  | VDict items => Returned (map (fun kv => VStr (fst kv)) items)
  | VStr s =>
      Returned
        (map (fun c => VStr (String c EmptyString)) (list_ascii_of_string s))
  | _ => Raised (TypeError ("'" ++ type_name v ++ "' object is not iterable"))
  end.

(** [v > 0] *)
Definition gt_zero (v : value) : result (exception exn) bool :=
  match v with
  | VFloat f => Returned (gt0 f)
  | _ =>
      Raised
        (TypeError
           ("'>' not supported between instances of '" ++ type_name v
            ++ "' and 'int'"))
  end.

(** [v >= d] for a date [d] *)
Definition ge_date (v : value) (d : date) : result (exception exn) bool :=
  match v with
  | VDate x => Returned (d <=? x)
  | _ =>
      Raised
        (TypeError
           ("'>=' not supported between instances of '" ++ type_name v
            ++ "' and 'datetime.date'"))
  end.

(** [acc + v], one step of [sum]. *)
Definition add_value (acc : number) (v : value)
  : result (exception exn) number :=
  match v with
  | VFloat f => Returned (py_add acc (Float f))
  | _ =>
      Raised
        (TypeError
           ("unsupported operand type(s) for +: '"
            ++ match acc with Int _ => "int" | Float _ => "float" end
            ++ "' and '" ++ type_name v ++ "'"))
  end.

(** [d - timedelta(days=n)], with the range check of [datetime]. *)
Definition minus_days (d : date) (n : Z) : result (exception exn) date :=
  if (1 <=? d - n) && (d - n <=? max_ordinal)
  then Returned (d - n)
  else Raised (OverflowError "date value out of range").

(** [[t for t in items if cond(t)]] *)
Fixpoint select (cond : value -> result (exception exn) bool)
  (items : list value) : result (exception exn) (list value) :=
  match items with
  | [] => Returned []
  | t :: rest =>
      ok <- cond t ;;
      kept <- select cond rest ;;
      Returned (if ok : bool then t :: kept else kept)
  end.

(** [sum(t['amount'] for t in items if cond(t))], continued from [acc]: the
    generator is consumed item by item. *)
Fixpoint sum_amounts (cond : value -> result (exception exn) bool)
  (items : list value) (acc : number) : result (exception exn) number :=
  match items with
  | [] => Returned acc
  | t :: rest =>
      ok <- cond t ;;
      if ok : bool
      then a <- getitem t "amount" ;;
           acc' <- add_value acc a ;;
           sum_amounts cond rest acc'
      else sum_amounts cond rest acc
  end.

(** The body of the [try] block of [create_link_token]. *)
Definition create_link_token_try : result (exception exn) body :=
  let request := link_token_request in
  response <- call (link_token_create client request) ;;
  link_token <- getitem response "link_token" ;;
  Returned (LinkTokenBody link_token).

Definition create_link_token : result HTTPException body :=
  try_except create_link_token_try
    (fun e =>
       Raised {| status_code := 400;
                 detail := "Error creating link token: " ++ str_exception e |}).

(** The body of the [try] block of [exchange_public_token]. *)
Definition exchange_public_token_try (token_request : PublicTokenRequest)
  : result (exception exn) body :=
  let request :=
    {| exchange_public_token_field := public_token token_request |} in
  response <- call (item_public_token_exchange client request) ;;
  access_token <- getitem response "access_token" ;;
  Returned (AccessTokenBody access_token).

Definition exchange_public_token (token_request : PublicTokenRequest)
  : result HTTPException body :=
  try_except (exchange_public_token_try token_request)
    (fun e =>
       Raised {| status_code := 400;
                 detail := "Error exchanging token: " ++ str_exception e |}).

(** The body of the [try] block of [get_spending]; [now_1] and [now_2] are
    the two readings of [datetime.now().date()]. *)
Definition get_spending_try (now_1 now_2 : date) (access_token : string)
  : result (exception exn) body :=
  let end_date := now_1 in
  start_date <- minus_days end_date 30 ;;
  let request :=
    {| access_token_field := access_token;
       start_date := start_date;
       end_date := end_date |} in
  response <- call (transactions_get client request) ;;
  transactions <- getitem response "transactions" ;;
  items <- iterate transactions ;;
  spending_transactions <-
    select (fun t => a <- getitem t "amount" ;; gt_zero a) items ;;
  let today := now_2 in
  yesterday <- minus_days today 1 ;;
  week_ago <- minus_days today 7 ;;
  daily <-
    sum_amounts (fun t => d <- getitem t "date" ;; ge_date d yesterday)
      spending_transactions (Int 0) ;;
  weekly <-
    sum_amounts (fun t => d <- getitem t "date" ;; ge_date d week_ago)
      spending_transactions (Int 0) ;;
  monthly <-
    sum_amounts (fun _ => Returned true) spending_transactions (Int 0) ;;
  Returned
    (SpendingBody
       {| daily := to_float (round daily);
          weekly := to_float (round weekly);
          monthly := to_float (round monthly) |}).

Definition get_spending (now_1 now_2 : date) (access_token : string)
  : result HTTPException body :=
  try_except (get_spending_try now_1 now_2 access_token)
    (fun e =>
       Raised {| status_code := 400;
                 detail := "Error fetching spending: " ++ str_exception e |}).

End Handlers.

Arguments str_exception {exn} str e.
Arguments call {exn} c.
Arguments getitem {exn} v key.
Arguments iterate {exn} v.
Arguments gt_zero {exn} v.
Arguments ge_date {exn} v d.
Arguments add_value {exn} acc v.
Arguments minus_days {exn} d n.
Arguments select {exn} cond items.
Arguments sum_amounts {exn} cond items acc.
Arguments create_link_token_try {exn} client.
Arguments create_link_token {exn} str client.
Arguments exchange_public_token_try {exn} client token_request.
Arguments exchange_public_token {exn} str client token_request.
Arguments get_spending_try {exn} client now_1 now_2 access_token.
Arguments get_spending {exn} str client now_1 now_2 access_token.

(** A request to one of the three business endpoints. *)
Inductive request : Type :=
| CreateLinkToken
| ExchangePublicToken (token_request : PublicTokenRequest)
| GetSpending (now_1 now_2 : date) (access_token : string).




(** A transaction and an answer of [transactions_get] as the handler reads
    them; the other keys of the provider's objects are not read. *)
Definition transaction_value (t : Transaction) : value :=
  VDict [("amount"%string, VFloat (amount t));
         ("date"%string, VDate (date_of t))].

Definition transactions_value (ts : list Transaction) : value :=
  VDict [("transactions"%string, VList (map transaction_value ts))].

(** A provider whose answer to [transactions_get] is the given value. *)
Definition answering (v : value) : PlaidApi string :=
  {| link_token_create :=
       fun _ => Returned (VDict [("link_token"%string, VStr "link-sandbox")]);
     item_public_token_exchange :=
       fun _ =>
         Returned (VDict [("access_token"%string, VStr "access-sandbox")]);
     transactions_get := fun _ => Returned v |}.

(** A provider that rejects every call with the given message. *)
Definition failing (msg : string) : PlaidApi string :=
  {| link_token_create := fun _ => Raised msg;
     item_public_token_exchange := fun _ => Raised msg;
     transactions_get := fun _ => Raised msg |}.

End Dynamic.

(** ** Definitions used in the statements and proofs *)

(** The binary64 sum of a list of floats, left to right. *)
Definition float_sum (l : list PyFloat.float) : PyFloat.float :=
  fold_left PyFloat.add l PyFloat.zero.

(** [a >= b] on floats. *)
Definition geb (a b : PyFloat.float) : bool := PyFloat.leb b a.

(** A transaction list whose amounts are binary64 values.  [spec_float]
    also contains triples with a mantissa that is not normalised or an
    exponent out of range; they stand for no Python float. *)
Definition well_formed (ts : list Transaction) : Prop :=
  Forall (fun t => valid_binary PyFloat.prec PyFloat.emax (amount t) = true) ts.

(** The float nearest to the decimal [n / 100], [n >= 0], with sign [s]. *)
Definition of_hundredths (s : bool) (n : Z) : PyFloat.float :=
  match n with
  | Zpos q => PyFloat.nearest s (Zpos q) 100
  | _ => S754_zero s
  end.

(** A float that is the nearest one to a decimal with two digits after
    the point. *)
Definition two_places (x : PyFloat.float) : Prop :=
  exists (s : bool) (n : Z), 0 <= n /\ x = of_hundredths s n.

Definition is_finite (x : PyFloat.float) : bool :=
  match x with
  | S754_zero _ | S754_finite _ _ _ => true
  | _ => false
  end.

(** A finite float that is the nearest one to a decimal with two digits
    after the point. *)
Definition two_decimal (x : PyFloat.float) : Prop :=
  is_finite x = true /\ two_places x.

(** [q] is the integer nearest to a hundred times [m * 2^e], and the even
    one of the two nearest when that product lies half way between them.
    Both sides are scaled by [2^-e] when [e] is negative. *)
Definition nearest_hundredth (m : positive) (e : Z) (q : Z) : Prop :=
  let scale := 2 ^ Z.max 0 (- e) in
  let scaled := 100 * Zpos m * 2 ^ Z.max 0 e in
  2 * Z.abs (q * scale - scaled) <= scale
  /\ (2 * Z.abs (q * scale - scaled) = scale -> Z.even q = true).

(** [o] is [x] rounded to two digits after the point: for a finite [x] the
    float nearest to [q / 100] with the sign of [x], where [q] is the integer
    nearest to [100 * |x|]; a zero, an infinity and NaN are left as they
    are. *)
Definition rounded_to_hundredths (x o : PyFloat.float) : Prop :=
  match x with
  | S754_finite s m e =>
      exists q : Z, 0 <= q /\ nearest_hundredth m e q /\ o = of_hundredths s q
  | _ => o = x
  end.

(** Five binary64 amounts, [1.0], [2^-52], [2^53], [1 - 2^-53] and
    [1 - 2^-52]; the second one is two weeks old. *)
Definition compensated_example : list Transaction :=
  [ {| amount := S754_finite false 4503599627370496 (-52);
       date_of := ymd 2024 6 15 |};
    {| amount := S754_finite false 4503599627370496 (-104);
       date_of := ymd 2024 6 1 |};
    {| amount := S754_finite false 4503599627370496 1;
       date_of := ymd 2024 6 15 |};
    {| amount := S754_finite false 9007199254740991 (-53);
       date_of := ymd 2024 6 15 |};
    {| amount := S754_finite false 9007199254740990 (-53);
       date_of := ymd 2024 6 15 |} ].

(** Two amounts of [1e308] dated today: their sum exceeds the largest
    binary64. *)
Definition overflow_example : list Transaction :=
  [ {| amount := PyFloat.of_decimal (10 ^ 308) 0; date_of := ymd 2024 6 15 |};
    {| amount := PyFloat.of_decimal (10 ^ 308) 0; date_of := ymd 2024 6 15 |} ].

(** A transaction used to exercise the window boundaries. *)
Definition boundary_transaction (d : date) : Transaction :=
  {| amount := PyFloat.of_decimal 1250 2; date_of := d |}.

(** The response whose three fields are [0.0]. *)
Definition zero_response : SpendingResponse :=
  {| daily := PyFloat.zero; weekly := PyFloat.zero; monthly := PyFloat.zero |}.

(** The same transaction, dated [k] days later. *)
Definition shift_days (k : Z) (t : Transaction) : Transaction :=
  {| amount := amount t; date_of := date_of t + k |}.

(** Dates from [first] to [last], both included. *)
Definition in_window (first last : date) (t : Transaction) : bool :=
  (first <=? date_of t) && (date_of t <=? last).

(** The rounded sum of the positive amounts dated from [first] to [last]. *)
Definition window_total (first last : date) (ts : list Transaction)
  : PyFloat.float :=
  PyFloat.round2
    (float_sum
       (map amount
          (filter (fun t => gt0 (amount t) && in_window first last t) ts))).

(** A provider that answers every call: the given transactions, and
    fixed tokens. *)
Definition answering_client (ts : list Transaction) : PlaidApi string :=
  {| link_token_create := fun _ => Returned {| link_token := "link-sandbox" |};
     item_public_token_exchange :=
       fun _ => Returned {| access_token := "access-sandbox" |};
     transactions_get := fun _ => Returned {| transactions_field := ts |} |}.

(** *** Decimal amounts

    Amounts given in hundredths, for the statements on exact totals. *)

(** The float nearest to the decimal [c / 100]. *)
Definition cents_float (c : Z) : PyFloat.float := PyFloat.of_decimal c 2.

Definition total_cents (l : list Z) : Z := fold_right Z.add 0 l.

(** A transaction whose amount is the decimal [c / 100]. *)
Definition of_cents (e : Z * date) : Transaction :=
  {| amount := cents_float (fst e); date_of := snd e |}.

(** The total, in hundredths, of the positive entries whose date
    satisfies [p]. *)
Definition cents_in (p : date -> bool) (entries : list (Z * date)) : Z :=
  total_cents
    (map fst (filter (fun e => (0 <? fst e) && p (snd e)) entries)).

Definition example_entries : list (Z * date) :=
  [ (1234, ymd 2024 6 15); (2000, ymd 2024 6 10); (-500, ymd 2024 6 14);
    (10000, ymd 2024 5 20); (999, ymd 2024 6 14) ].

(** *** Values of floats

    The proofs on the order of the totals read a non-negative float as an
    integer, its value in units of [2^emin]. *)

Definition emin : Z := -1074.

(** The value of a finite float in units of [2^emin]. *)
Definition ival (m : positive) (e : Z) : Z := Zpos m * 2 ^ (e - emin).

(** The least value, in the same units, that rounds to infinity. *)
Definition overflow_value : Z := 2 ^ (PyFloat.emax - emin).

Definition xval (x : spec_float) : Z :=
  match x with
  | S754_finite _ m e => ival m e
  | S754_infinity _ => overflow_value
  | _ => 0
  end.

(** Non-negative well-formed floats: [+0.0], [+inf] and the positive
    finite floats in canonical form. *)
Definition good (x : spec_float) : bool :=
  match x with
  | S754_zero s => negb s
  | S754_infinity s => negb s
  | S754_nan => false
  | S754_finite s m e => negb s && bounded PyFloat.prec PyFloat.emax m e
  end.

(** The largest finite binary64, [(2^53 - 1) * 2^971]. *)
Definition max_float : PyFloat.float :=
  S754_finite false 9007199254740991 971.

(** Integer part of [n / d] and the position of the remainder with
    respect to one half. *)
Definition floor_loc (n d : Z) : Z * location :=
  (n / d,
   if n mod d =? 0 then loc_Exact else loc_Inexact (2 * (n mod d) ?= d)).

Definition record_of (ql : Z * location) : shr_record :=
  shr_record_of_loc (fst ql) (snd ql).

(** The binary order of magnitude of [n / d * 2^ex], for [d <= n]. *)
Definition mag (n d ex : Z) : Z := Zdigits2 (n / d) + ex.

(** The value [n / d * 2^ex] rounded to the nearest float, ties to even,
    before overflow is taken into account, in units of [2^emin]. *)
Definition rounded (n d ex : Z) : Z :=
  let e' := fexp PyFloat.prec PyFloat.emax (mag n d ex) in
  PyFloat.div_half_even n (d * 2 ^ (e' - ex)) * 2 ^ (e' - emin).

(** The last step of [binary_round_aux]: renormalise the rounded mantissa
    and detect overflow. *)
Definition finish (s : bool) (m e : Z) : spec_float :=
  let '(mrs, e') := shr_fexp PyFloat.prec PyFloat.emax m e loc_Exact in
  match shr_m mrs with
  | Z0 => S754_zero s
  | Zpos p =>
      if e' <=? PyFloat.emax - PyFloat.prec
      then S754_finite s p e' else S754_infinity s
  | Zneg _ => S754_nan
  end.

(** The float built from a canonical pair, with overflow to infinity. *)
Definition pack (m : positive) (e : Z) : spec_float :=
  if e <=? PyFloat.emax - PyFloat.prec
  then S754_finite false m e else S754_infinity false.

(** The sum of two values, rounded, in units of [2^emin]. *)
Definition rounded_sum (v w : Z) : Z :=
  Z.min overflow_value (rounded (v + w) 1 emin).

(** The value of [round(x, 2)] from the value of [x]. *)
Definition rounded_hundredths (v : Z) : Z :=
  let h := PyFloat.div_half_even (100 * v) (2 ^ 1074) in
  if h <=? 0 then 0
  else Z.min overflow_value (rounded (h * 2 ^ 60) 100 (-60)).

(** The value of [1.0] in units of [2^emin]. *)
Definition unit_value : Z := 2 ^ 1074.

(** Half the distance between consecutive floats below [2^30], in the
    same units. *)
Definition half_ulp : Z := 2 ^ 1050.

(** A term of a sum of decimal amounts: a well-formed positive float
    within half an ulp of [c / 100]. *)
Definition near_cents (x : PyFloat.float) (c : Z) : Prop :=
  0 < c
  /\ good x = true
  /\ 0 < xval x
  /\ Z.abs (100 * xval x - c * unit_value) <= 100 * half_ulp.

(** ** Binary64 rounding

    [binary_round_aux] is characterised by integer arithmetic, from which
    addition and [round(x, 2)] are shown to be monotone on well-formed
    non-negative floats. *)

Module FloatFacts.

Import PyFloat.

#[local] Arguments Z.mul : simpl never.
#[local] Arguments Z.add : simpl never.
#[local] Arguments Z.sub : simpl never.
#[local] Arguments Z.pow : simpl never.
#[local] Arguments Z.div : simpl never.
#[local] Arguments Z.modulo : simpl never.
#[local] Arguments Z.compare : simpl never.
#[local] Arguments Z.leb : simpl never.
#[local] Arguments Z.eqb : simpl never.

(** Replace a term by a variable before calling [lia] or [nia]. *)
Tactic Notation "forget" constr(t) "as" ident(x) :=
  let E := fresh "E" in remember t as x eqn:E; clear E.

Lemma digits2_pos_size (p : positive) : digits2_pos p = Pos.size p.
Proof. induction p; simpl; congruence. Qed.

Lemma Zdigits2_log2 (n : Z) : 0 < n -> Zdigits2 n = Z.log2 n + 1.
Proof.
  destruct n as [|p|p]; try lia. intros _. simpl.
  rewrite digits2_pos_size. destruct p; simpl; lia.
Qed.

Lemma Zdigits2_spec (n : Z) :
  0 < n -> 2 ^ (Zdigits2 n - 1) <= n < 2 ^ Zdigits2 n.
Proof.
  intros H. rewrite (Zdigits2_log2 n H).
  replace (Z.log2 n + 1 - 1) with (Z.log2 n) by lia.
  replace (Z.log2 n + 1) with (Z.succ (Z.log2 n)) by lia.
  apply Z.log2_spec, H.
Qed.

Lemma Zdigits2_unique (n k : Z) :
  2 ^ (k - 1) <= n < 2 ^ k -> 1 <= k -> Zdigits2 n = k.
Proof.
  intros H Hk.
  assert (0 < n) by (pose proof (Z.pow_pos_nonneg 2 (k - 1)); lia).
  rewrite Zdigits2_log2 by assumption.
  rewrite (Z.log2_unique n (k - 1)); try lia.
  replace (Z.succ (k - 1)) with k by lia. exact H.
Qed.

Lemma Zdigits2_nonneg (n : Z) : 0 <= Zdigits2 n.
Proof. destruct n; simpl; lia. Qed.

Lemma Zdigits2_pos (n : Z) : 0 < n -> 1 <= Zdigits2 n.
Proof. destruct n; simpl; lia. Qed.

Lemma Zdigits2_mono (a b : Z) : 0 <= a <= b -> Zdigits2 a <= Zdigits2 b.
Proof.
  intros [Ha Hab]. destruct (Z.eq_dec a 0) as [->|Hn].
  - apply Zdigits2_nonneg.
  - rewrite !Zdigits2_log2 by lia.
    pose proof (Z.log2_le_mono a b Hab). lia.
Qed.

(** shr_1 in arithmetic form *)
Lemma shr_1_spec (m : Z) (r s : bool) :
  0 <= m ->
  shr_1 {| shr_m := m; shr_r := r; shr_s := s |}
  = {| shr_m := m / 2; shr_r := Z.odd m; shr_s := r || s |}.
Proof.
  intros Hm. rewrite <- Z.div2_div.
  destruct m as [|[p|p|]|p]; try reflexivity. lia.
Qed.

Lemma floor_loc_bits (n d : Z) :
  0 < d ->
  record_of (floor_loc n d)
  = {| shr_m := n / d;
       shr_r := d <=? 2 * (n mod d);
       shr_s := negb (n mod d =? 0) && negb (2 * (n mod d) =? d) |}.
Proof.
  intros Hd. unfold record_of, floor_loc; simpl.
  pose proof (Z.mod_pos_bound n d Hd).
  destruct (Z.eqb_spec (n mod d) 0) as [E|E].
  - rewrite E; simpl. destruct (Z.leb_spec d (2 * 0)); [lia|reflexivity].
  - destruct (Z.compare_spec (2 * (n mod d)) d);
      destruct (Z.leb_spec d (2 * (n mod d)));
      destruct (Z.eqb_spec (2 * (n mod d)) d); simpl; try reflexivity; lia.
Qed.

Lemma shr_1_floor_loc (n d : Z) :
  0 <= n -> 0 < d ->
  shr_1 (record_of (floor_loc n d)) = record_of (floor_loc n (d * 2)).
Proof.
  intros Hn Hd.
  rewrite !floor_loc_bits by lia.
  assert (Hq : 0 <= n / d) by (apply Z.div_pos; lia).
  rewrite shr_1_spec by assumption.
  rewrite Z.div_div by lia.
  rewrite (Z.rem_mul_r n d 2) by lia.
  pose proof (Z.mod_pos_bound n d Hd).
  pose proof (Z.mod_pos_bound (n / d) 2 ltac:(lia)).
  rewrite (Zmod_odd (n / d)) in *.
  f_equal.
  - destruct (Z.odd (n / d));
      destruct (Z.leb_spec (d * 2) (2 * (n mod d + d * (if true then 1 else 0))));
      destruct (Z.leb_spec (d * 2) (2 * (n mod d + d * (if false then 1 else 0))));
      try reflexivity; nia.
  - destruct (Z.odd (n / d)); destruct (Z.leb_spec d (2 * (n mod d)));
      destruct (Z.eqb_spec (n mod d) 0);
      destruct (Z.eqb_spec (2 * (n mod d)) d);
      destruct (Z.eqb_spec (n mod d + d * ((n / d) mod 2)) 0);
      destruct (Z.eqb_spec (2 * (n mod d + d * ((n / d) mod 2))) (d * 2));
      simpl; try reflexivity; nia.
Qed.

Lemma iter_pos_shr_1 (p : positive) (n d : Z) :
  0 <= n -> 0 < d ->
  iter_pos shr_1 p (record_of (floor_loc n d))
  = record_of (floor_loc n (d * 2 ^ Zpos p)).
Proof.
  intros Hn. revert d.
  induction p as [p IH|p IH|]; intros d Hd; simpl iter_pos.
  - rewrite shr_1_floor_loc by lia.
    assert (0 < 2 ^ Zpos p) by (apply Z.pow_pos_nonneg; lia).
    rewrite IH by lia. rewrite IH by nia.
    f_equal; f_equal.
    replace (Zpos p~1) with (1 + Zpos p + Zpos p) by lia.
    rewrite !Z.pow_add_r by lia. change (2 ^ 1) with 2. ring.
  - assert (0 < 2 ^ Zpos p) by (apply Z.pow_pos_nonneg; lia).
    rewrite IH by lia. rewrite IH by nia.
    f_equal; f_equal.
    replace (Zpos p~0) with (Zpos p + Zpos p) by lia.
    rewrite !Z.pow_add_r by lia. ring.
  - now rewrite shr_1_floor_loc by lia.
Qed.

Lemma shr_floor_loc (n d e k : Z) :
  0 <= n -> 0 < d ->
  shr (record_of (floor_loc n d)) e k
  = (record_of (floor_loc n (d * 2 ^ Z.max 0 k)), e + Z.max 0 k).
Proof.
  intros Hn Hd. destruct k as [|p|p]; simpl shr.
  - simpl. now rewrite Z.mul_1_r, Z.add_0_r.
  - rewrite iter_pos_shr_1 by assumption.
    now replace (Z.max 0 (Zpos p)) with (Zpos p) by lia.
  - replace (Z.max 0 (Zneg p)) with 0 by lia.
    simpl. now rewrite Z.mul_1_r, Z.add_0_r.
Qed.

Lemma record_of_m (ql : Z * location) : shr_m (record_of ql) = fst ql.
Proof. destruct ql as [q [|[]]]; reflexivity. Qed.

Lemma record_of_loc (ql : Z * location) :
  loc_of_shr_record (record_of ql) = snd ql.
Proof. destruct ql as [q [|[]]]; reflexivity. Qed.

Lemma round_nearest_even_floor_loc (n d : Z) :
  0 < d ->
  round_nearest_even (fst (floor_loc n d)) (snd (floor_loc n d))
  = div_half_even n d.
Proof.
  intros Hd. unfold floor_loc, div_half_even; simpl.
  destruct (Z.eqb_spec (n mod d) 0) as [E|E]; simpl.
  - rewrite E; simpl. destruct d; try lia. reflexivity.
  - destruct (2 * (n mod d) ?= d); reflexivity.
Qed.

Lemma floor_loc_exact (m : Z) : floor_loc m 1 = (m, loc_Exact).
Proof. unfold floor_loc. now rewrite Z.div_1_r, Z.mod_1_r. Qed.

(** div_half_even *)
Lemma div_half_even_bounds (a b : Z) :
  0 < b -> a / b <= div_half_even a b <= a / b + 1.
Proof.
  intros Hb. unfold div_half_even.
  destruct (2 * (a mod b) ?= b); [destruct (Z.even (a / b))| |]; lia.
Qed.

Lemma div_half_even_mono (a1 a2 b : Z) :
  0 < b -> a1 <= a2 -> div_half_even a1 b <= div_half_even a2 b.
Proof.
  intros Hb H.
  pose proof (Z.div_le_mono a1 a2 b Hb H) as Hq.
  pose proof (div_half_even_bounds a1 b Hb).
  pose proof (div_half_even_bounds a2 b Hb).
  destruct (Z.eq_dec (a1 / b) (a2 / b)) as [E|E]; [|lia].
  pose proof (Z.div_mod a1 b ltac:(lia)).
  pose proof (Z.div_mod a2 b ltac:(lia)).
  assert (a1 mod b <= a2 mod b) by (rewrite E in *; lia).
  unfold div_half_even. rewrite E.
  destruct (Z.compare_spec (2 * (a1 mod b)) b);
    destruct (Z.compare_spec (2 * (a2 mod b)) b);
    destruct (Z.even (a2 / b)); lia.
Qed.

Lemma div_half_even_scale (c a b : Z) :
  0 < c -> 0 < b -> div_half_even (c * a) (c * b) = div_half_even a b.
Proof.
  intros Hc Hb. unfold div_half_even.
  rewrite Z.div_mul_cancel_l by lia.
  rewrite Z.mul_mod_distr_l by lia.
  replace (2 * (c * (a mod b))) with (c * (2 * (a mod b))) by ring.
  now rewrite <- (Zmult_compare_compat_l (2 * (a mod b)) b c) by lia.
Qed.

Lemma div_half_even_exact (a : Z) : div_half_even a 1 = a.
Proof.
  unfold div_half_even. now rewrite Z.div_1_r, Z.mod_1_r.
Qed.

Lemma div_half_even_ge (a b k : Z) :
  0 < b -> k * b <= a -> k <= div_half_even a b.
Proof.
  intros Hb H. pose proof (div_half_even_bounds a b Hb).
  assert (k <= a / b) by (apply Z.div_le_lower_bound; lia). lia.
Qed.

Lemma div_half_even_le (a b k : Z) :
  0 < b -> a < k * b -> div_half_even a b <= k.
Proof.
  intros Hb H. pose proof (div_half_even_bounds a b Hb).
  assert (a / b < k) by (apply Z.div_lt_upper_bound; lia). lia.
Qed.

Lemma fexp_eq (g : Z) : fexp prec emax g = Z.max (g - 53) (-1074).
Proof. reflexivity. Qed.

Lemma fexp_mono (a b : Z) : a <= b -> fexp prec emax a <= fexp prec emax b.
Proof. rewrite !fexp_eq; lia. Qed.

Lemma pow2_pos (k : Z) : 0 <= k -> 0 < 2 ^ k.
Proof. intros; apply Z.pow_pos_nonneg; lia. Qed.

Lemma pow2_le (a b : Z) : 0 <= a <= b -> 2 ^ a <= 2 ^ b.
Proof. intros; apply Z.pow_le_mono_r; lia. Qed.

Lemma pow2_lt (a b : Z) : 0 <= a < b -> 2 ^ a < 2 ^ b.
Proof. intros; apply Z.pow_lt_mono_r; lia. Qed.

Lemma pow2_split (a b : Z) : 0 <= a -> 0 <= b -> 2 ^ (a + b) = 2 ^ a * 2 ^ b.
Proof. intros; apply Z.pow_add_r; lia. Qed.

Lemma binary_round_aux_finish (s : bool) (n d ex : Z) :
  0 <= n -> 0 < d ->
  ex <= fexp prec emax (mag n d ex) ->
  binary_round_aux prec emax s (fst (floor_loc n d)) ex (snd (floor_loc n d))
  = finish s (div_half_even n (d * 2 ^ (fexp prec emax (mag n d ex) - ex)))
      (fexp prec emax (mag n d ex)).
Proof.
  intros Hn Hd He. unfold binary_round_aux, finish.
  unfold shr_fexp at 1.
  change (shr_record_of_loc (fst (floor_loc n d)) (snd (floor_loc n d)))
    with (record_of (floor_loc n d)).
  rewrite shr_floor_loc by assumption.
  change (fst (floor_loc n d)) with (n / d).
  fold (mag n d ex).
  forget (fexp prec emax (mag n d ex)) as e'.
  replace (Z.max 0 (e' - ex)) with (e' - ex) by lia.
  replace (ex + (e' - ex)) with e' by lia.
  rewrite record_of_m, record_of_loc.
  rewrite round_nearest_even_floor_loc; [reflexivity|].
  pose proof (pow2_pos (e' - ex) ltac:(lia)); nia.
Qed.

Lemma digits_scale (n d j : Z) :
  0 < d <= n -> 0 <= j -> Zdigits2 (n * 2 ^ j / d) = Zdigits2 (n / d) + j.
Proof.
  intros [Hd Hn] Hj.
  assert (Hq : 0 < n / d) by (apply Z.div_str_pos; lia).
  pose proof (Zdigits2_spec _ Hq) as [Hlo Hhi].
  pose proof (Zdigits2_pos _ Hq) as Hk.
  forget (Zdigits2 (n / d)) as k.
  pose proof (Z.div_mod n d ltac:(lia)) as Hdm.
  pose proof (Z.mod_pos_bound n d Hd) as Hmb.
  forget (n / d) as q.
  forget (n mod d) as r.
  pose proof (pow2_pos j Hj) as Hpj.
  apply Zdigits2_unique; [|lia].
  replace (k + j - 1) with (k - 1 + j) by lia.
  rewrite !pow2_split by lia.
  forget (2 ^ j) as pj.
  forget (2 ^ (k - 1)) as pk1.
  forget (2 ^ k) as pk.
  assert (d * pk1 <= n) by nia.
  assert (n < d * pk) by nia.
  split.
  - apply Z.div_le_lower_bound; [lia|]. nia.
  - apply Z.div_lt_upper_bound; [lia|]. nia.
Qed.

Lemma mag_rebase (n d ex j : Z) :
  0 < d <= n -> 0 <= j -> mag (n * 2 ^ j) d (ex - j) = mag n d ex.
Proof. intros; unfold mag; rewrite digits_scale by assumption; ring. Qed.

Lemma rounded_rebase (n d ex j : Z) :
  0 < d <= n -> 0 <= j -> ex <= fexp prec emax (mag n d ex) ->
  rounded (n * 2 ^ j) d (ex - j) = rounded n d ex.
Proof.
  intros Hnd Hj He. unfold rounded. rewrite mag_rebase by assumption.
  forget (fexp prec emax (mag n d ex)) as e'.
  f_equal.
  replace (e' - (ex - j)) with (j + (e' - ex)) by lia.
  rewrite pow2_split by lia.
  replace (n * 2 ^ j) with (2 ^ j * n) by ring.
  replace (d * (2 ^ j * 2 ^ (e' - ex))) with (2 ^ j * (d * 2 ^ (e' - ex)))
    by ring.
  apply div_half_even_scale; [apply pow2_pos; lia|].
  pose proof (pow2_pos (e' - ex) ltac:(lia)); nia.
Qed.

Lemma mag_mono (n1 n2 d ex : Z) :
  0 < d -> 0 <= n1 <= n2 -> mag n1 d ex <= mag n2 d ex.
Proof.
  intros Hd H. unfold mag.
  assert (H1 : n1 / d <= n2 / d) by (apply Z.div_le_mono; lia).
  assert (H2 : 0 <= n1 / d) by (apply Z.div_pos; lia).
  pose proof (Zdigits2_mono (n1 / d) (n2 / d) (conj H2 H1)) as H3.
  forget (Zdigits2 (n1 / d)) as k1.
  forget (Zdigits2 (n2 / d)) as k2.
  lia.
Qed.

(** The mantissa selected by the rounding lies in the binade of the
    value. *)
Lemma mantissa_bounds (n d ex : Z) :
  0 < d <= n -> emin <= ex -> ex <= fexp prec emax (mag n d ex) ->
  0 <= mag n d ex - 1 - fexp prec emax (mag n d ex)
  /\ 2 ^ (mag n d ex - 1 - fexp prec emax (mag n d ex))
     <= div_half_even n (d * 2 ^ (fexp prec emax (mag n d ex) - ex))
     <= 2 ^ (mag n d ex - fexp prec emax (mag n d ex)).
Proof.
  intros [Hd Hn] Hex He.
  assert (Hq : 0 < n / d) by (apply Z.div_str_pos; lia).
  pose proof (Zdigits2_spec _ Hq) as [Hlo Hhi].
  pose proof (Zdigits2_pos _ Hq) as Hk.
  pose proof (Z.div_mod n d ltac:(lia)) as Hdm.
  pose proof (Z.mod_pos_bound n d Hd) as Hmb.
  pose proof (fexp_eq (mag n d ex)) as Hf.
  unfold mag in *.
  forget (Zdigits2 (n / d)) as k.
  forget (fexp prec emax (k + ex)) as e'.
  forget (n / d) as q.
  forget (n mod d) as r.
  unfold emin in *.
  assert (Hge : 0 <= k + ex - 1 - e') by lia.
  split; [exact Hge|].
  assert (Hj : 0 <= e' - ex) by lia.
  pose proof (pow2_pos (e' - ex) Hj) as Hpj.
  assert (E1 : 2 ^ (k - 1) = 2 ^ (k + ex - 1 - e') * 2 ^ (e' - ex)).
  { rewrite <- pow2_split by lia. f_equal. lia. }
  assert (E2 : 2 ^ k = 2 ^ (k + ex - e') * 2 ^ (e' - ex)).
  { rewrite <- pow2_split by lia. f_equal. lia. }
  forget (2 ^ (e' - ex)) as pj.
  forget (2 ^ (k + ex - 1 - e')) as plo.
  forget (2 ^ (k + ex - e')) as phi.
  forget (2 ^ (k - 1)) as pk1.
  forget (2 ^ k) as pk.
  split.
  - apply div_half_even_ge; nia.
  - apply div_half_even_le; nia.
Qed.

Lemma rounded_bounds (n d ex : Z) :
  0 < d <= n -> emin <= ex -> ex <= fexp prec emax (mag n d ex) ->
  2 ^ (mag n d ex - 1 - emin) <= rounded n d ex <= 2 ^ (mag n d ex - emin).
Proof.
  intros Hnd Hex He.
  destruct (mantissa_bounds n d ex Hnd Hex He) as (Hge & Hlo & Hhi).
  unfold rounded.
  pose proof (fexp_eq (mag n d ex)) as Hf.
  forget (mag n d ex) as g.
  forget (fexp prec emax g) as e'.
  forget (div_half_even n (d * 2 ^ (e' - ex))) as M.
  unfold emin in *.
  assert (-1074 <= e') by lia.
  pose proof (pow2_pos (e' - -1074) ltac:(lia)).
  replace (g - 1 - -1074) with (g - 1 - e' + (e' - -1074)) by lia.
  replace (g - -1074) with (g - e' + (e' - -1074)) by lia.
  rewrite !pow2_split by lia.
  forget (2 ^ (e' - -1074)) as p.
  split; nia.
Qed.

Lemma rounded_mono (n1 n2 d ex : Z) :
  0 < d <= n1 -> n1 <= n2 -> emin <= ex ->
  ex <= fexp prec emax (mag n1 d ex) ->
  rounded n1 d ex <= rounded n2 d ex.
Proof.
  intros Hd H12 Hex He1.
  pose proof (mag_mono n1 n2 d ex ltac:(lia) ltac:(lia)) as Hg.
  pose proof (fexp_mono _ _ Hg) as Hf.
  destruct (Z.eq_dec (mag n1 d ex) (mag n2 d ex)) as [E|E].
  - unfold rounded. rewrite <- E.
    pose proof (fexp_eq (mag n1 d ex)) as Hfe.
    forget (fexp prec emax (mag n1 d ex)) as e'.
    unfold emin in *.
    pose proof (pow2_pos (e' - -1074) ltac:(lia)).
    pose proof (pow2_pos (e' - ex) ltac:(lia)).
    apply Z.mul_le_mono_nonneg_r; [lia|].
    apply div_half_even_mono; [nia|lia].
  - assert (He2 : ex <= fexp prec emax (mag n2 d ex)) by lia.
    pose proof (rounded_bounds n1 d ex Hd Hex He1) as [_ H1].
    pose proof (rounded_bounds n2 d ex ltac:(lia) Hex He2) as [H2 _].
    assert (Hq : 0 < n1 / d) by (apply Z.div_str_pos; lia).
    pose proof (Zdigits2_pos _ Hq) as Hk.
    assert (2 ^ (mag n1 d ex - emin) <= 2 ^ (mag n2 d ex - 1 - emin)).
    { apply pow2_le. unfold mag, emin in *.
      forget (Zdigits2 (n1 / d)) as k1.
      forget (Zdigits2 (n2 / d)) as k2. lia. }
    lia.
Qed.

Lemma overflow_value_pos : 0 < overflow_value.
Proof. apply pow2_pos. unfold emax, emin; lia. Qed.

Lemma ival_pos (m : positive) (e : Z) : emin <= e -> 0 < ival m e.
Proof.
  intros H. unfold ival. pose proof (pow2_pos (e - emin) ltac:(lia)). nia.
Qed.

(** Facts on canonical mantissas. *)
Lemma canonical_facts (m : positive) (e : Z) :
  canonical_mantissa prec emax m e = true ->
  emin <= e
  /\ Zdigits2 (Zpos m) <= 53
  /\ (emin < e -> Zdigits2 (Zpos m) = 53).
Proof.
  unfold canonical_mantissa. intros H. apply Z.eqb_eq in H.
  rewrite fexp_eq in H. change (Zdigits2 (Zpos m)) with (Zpos (digits2_pos m)).
  unfold emin. lia.
Qed.

Lemma canonical_below_overflow (m : positive) (e : Z) :
  canonical_mantissa prec emax m e = true -> e <= emax - prec ->
  ival m e < overflow_value.
Proof.
  intros Hc He. destruct (canonical_facts m e Hc) as (Hmin & Hd & _).
  pose proof (Zdigits2_spec (Zpos m) ltac:(lia)) as [_ Hhi].
  assert (Hm : Zpos m < 2 ^ 53).
  { apply Z.lt_le_trans with (1 := Hhi). apply pow2_le.
    pose proof (Zdigits2_nonneg (Zpos m)). lia. }
  unfold ival, overflow_value, emax, prec, emin in *.
  replace (1024 - -1074) with (53 + (971 - -1074)) by lia.
  rewrite pow2_split by lia.
  pose proof (pow2_le (e - -1074) (971 - -1074) ltac:(lia)) as Hp.
  pose proof (pow2_pos (e - -1074) ltac:(lia)) as Hq.
  forget (2 ^ (e - -1074)) as a.
  forget (2 ^ (971 - -1074)) as b.
  forget (2 ^ 53) as c.
  nia.
Qed.

Lemma canonical_overflow (m : positive) (e : Z) :
  canonical_mantissa prec emax m e = true -> emax - prec < e ->
  overflow_value <= ival m e.
Proof.
  intros Hc He. destruct (canonical_facts m e Hc) as (Hmin & _ & Hd).
  unfold emax, prec, emin in *.
  pose proof (Zdigits2_spec (Zpos m) ltac:(lia)) as [Hlo _].
  rewrite Hd in Hlo by lia. change (53 - 1) with 52 in Hlo.
  unfold ival, overflow_value, emax, emin.
  replace (1024 - -1074) with (52 + (972 - -1074)) by lia.
  rewrite pow2_split by lia.
  pose proof (pow2_le (972 - -1074) (e - -1074) ltac:(lia)) as Hp.
  pose proof (pow2_pos (972 - -1074) ltac:(lia)) as Hq.
  forget (2 ^ (e - -1074)) as a.
  forget (2 ^ (972 - -1074)) as b.
  forget (2 ^ 52) as c.
  nia.
Qed.

Lemma pack_spec (m : positive) (e : Z) :
  canonical_mantissa prec emax m e = true ->
  good (pack m e) = true
  /\ xval (pack m e) = Z.min overflow_value (ival m e).
Proof.
  intros Hc. unfold pack.
  destruct (Z.leb_spec e (emax - prec)) as [H|H].
  - pose proof (canonical_below_overflow m e Hc H).
    split; [|simpl; lia].
    simpl. unfold bounded. rewrite Hc. simpl.
    now apply Z.leb_le.
  - pose proof (canonical_overflow m e Hc H).
    split; [reflexivity|simpl; lia].
Qed.

Lemma finish_shift (s : bool) (m e : Z) :
  0 <= m ->
  finish s m e
  = match m / 2 ^ Z.max 0 (fexp prec emax (Zdigits2 m + e) - e) with
    | Z0 => S754_zero s
    | Zpos p =>
        if e + Z.max 0 (fexp prec emax (Zdigits2 m + e) - e) <=? emax - prec
        then S754_finite s p
               (e + Z.max 0 (fexp prec emax (Zdigits2 m + e) - e))
        else S754_infinity s
    | Zneg _ => S754_nan
    end.
Proof.
  intros Hm. unfold finish, shr_fexp.
  change (shr_record_of_loc m loc_Exact) with (record_of (m, loc_Exact)).
  rewrite <- floor_loc_exact.
  rewrite shr_floor_loc by lia.
  rewrite record_of_m. cbn [fst floor_loc]. now rewrite Z.mul_1_l.
Qed.

Lemma finish_spec (m g : Z) :
  emin + 1 <= g ->
  2 ^ (g - 1 - fexp prec emax g) <= m <= 2 ^ (g - fexp prec emax g) ->
  good (finish false m (fexp prec emax g)) = true
  /\ xval (finish false m (fexp prec emax g))
     = Z.min overflow_value (m * 2 ^ (fexp prec emax g - emin)).
Proof.
  intros Hg [Hlo Hhi].
  pose proof (fexp_eq g) as Hf.
  forget (fexp prec emax g) as e'.
  unfold emin in Hg.
  assert (Hge : 0 <= g - 1 - e') by lia.
  pose proof (pow2_pos _ Hge) as Hp.
  assert (Hm : 0 < m) by lia.
  rewrite finish_shift by lia.
  destruct (Z.eq_dec m (2 ^ (g - e'))) as [Em|Em].
  - (* the rounded mantissa reaches the next power of two *)
    assert (Hd : Zdigits2 m = g - e' + 1).
    { apply Zdigits2_unique; [|lia].
      replace (g - e' + 1 - 1) with (g - e') by lia.
      split; [lia|]. rewrite Em. apply pow2_lt. lia. }
    rewrite Hd.
    replace (g - e' + 1 + e') with (g + 1) by lia.
    pose proof (fexp_eq (g + 1)) as Hf1.
    forget (fexp prec emax (g + 1)) as e1.
    destruct (Z.eq_dec e1 e') as [E1|E1].
    + replace (Z.max 0 (e1 - e')) with 0 by lia.
      rewrite Z.add_0_r. change (2 ^ 0) with 1. rewrite Z.div_1_r.
      destruct m as [|p|p]; try lia.
      assert (Hc : canonical_mantissa prec emax p e' = true).
      { unfold canonical_mantissa. apply Z.eqb_eq.
        change (Zpos (digits2_pos p)) with (Zdigits2 (Zpos p)).
        rewrite Hd. replace (g - e' + 1 + e') with (g + 1) by lia.
        rewrite fexp_eq. lia. }
      exact (pack_spec p e' Hc).
    + assert (E2 : e1 = e' + 1) by lia.
      replace (Z.max 0 (e1 - e')) with 1 by lia.
      change (2 ^ 1) with 2.
      assert (Eh : m / 2 = 2 ^ (g - e' - 1)).
      { rewrite Em. replace (g - e') with (1 + (g - e' - 1)) at 1 by lia.
        rewrite pow2_split by lia. change (2 ^ 1) with 2.
        rewrite Z.mul_comm. apply Z.div_mul. lia. }
      assert (Hh : 0 < m / 2) by (rewrite Eh; apply pow2_pos; lia).
      assert (Ev : m = 2 * (m / 2)).
      { rewrite Eh, Em. replace (g - e') with (1 + (g - e' - 1)) at 1 by lia.
        now rewrite pow2_split by lia. }
      destruct (m / 2) as [|p|p] eqn:Ep; try lia.
      assert (Hc : canonical_mantissa prec emax p (e' + 1) = true).
      { unfold canonical_mantissa. apply Z.eqb_eq.
        change (Zpos (digits2_pos p)) with (Zdigits2 (Zpos p)).
        rewrite (Zdigits2_unique (Zpos p) (g - e')).
        - rewrite fexp_eq. lia.
        - rewrite Eh. split; [lia|]. apply pow2_lt. lia.
        - lia. }
      destruct (pack_spec p (e' + 1) Hc) as [G V].
      split; [exact G|]. unfold pack in V. rewrite V. f_equal.
      unfold ival. rewrite Ev.
      replace (e' + 1 - emin) with (1 + (e' - emin)) by lia.
      rewrite pow2_split by (unfold emin; lia). change (2 ^ 1) with 2. ring.
  - assert (Hd : Zdigits2 m = g - e').
    { apply Zdigits2_unique; [|lia].
      replace (g - e' - 1) with (g - 1 - e') by lia. lia. }
    rewrite Hd. replace (g - e' + e') with g by lia.
    pose proof (fexp_eq g) as Hf0.
    forget (fexp prec emax g) as e0.
    replace (Z.max 0 (e0 - e')) with 0 by lia.
    rewrite Z.add_0_r. change (2 ^ 0) with 1. rewrite Z.div_1_r.
    destruct m as [|p|p]; try lia.
    assert (Hc : canonical_mantissa prec emax p e' = true).
    { unfold canonical_mantissa. apply Z.eqb_eq.
      change (Zpos (digits2_pos p)) with (Zdigits2 (Zpos p)).
      rewrite Hd. replace (g - e' + e') with g by lia.
      rewrite fexp_eq. lia. }
    exact (pack_spec p e' Hc).
Qed.

(** The rounding of [n / d * 2^ex]: the result is a well-formed
    non-negative float whose value is [rounded n d ex], or infinity. *)
Lemma binary_round_aux_spec (n d ex : Z) :
  0 < d <= n -> emin <= ex -> ex <= fexp prec emax (mag n d ex) ->
  good (binary_round_aux prec emax false
          (fst (floor_loc n d)) ex (snd (floor_loc n d))) = true
  /\ xval (binary_round_aux prec emax false
             (fst (floor_loc n d)) ex (snd (floor_loc n d)))
     = Z.min overflow_value (rounded n d ex).
Proof.
  intros Hnd Hex He.
  rewrite binary_round_aux_finish by lia.
  destruct (mantissa_bounds n d ex Hnd Hex He) as (Hge & Hlo & Hhi).
  unfold rounded. apply finish_spec; [|split; assumption].
  assert (Hq : 0 < n / d) by (apply Z.div_str_pos; lia).
  pose proof (Zdigits2_pos _ Hq) as Hk. unfold mag.
  forget (Zdigits2 (n / d)) as k. lia.
Qed.

(** Comparison of well-formed non-negative floats is comparison of their
    values. *)
Lemma good_xval_nonneg (x : spec_float) : good x = true -> 0 <= xval x.
Proof.
  destruct x as [s|s| |s m e]; simpl; intros H; try lia.
  - pose proof overflow_value_pos; lia.
  - apply andb_true_iff in H as [_ H]. unfold bounded in H.
    apply andb_true_iff in H as [Hc _].
    destruct (canonical_facts m e Hc) as (Hmin & _).
    pose proof (ival_pos m e Hmin). lia.
Qed.

Lemma good_xval_le_overflow (x : spec_float) :
  good x = true -> xval x <= overflow_value.
Proof.
  destruct x as [s|s| |s m e]; simpl; intros H; try lia.
  - pose proof overflow_value_pos; lia.
  - apply andb_true_iff in H as [_ H]. unfold bounded in H.
    apply andb_true_iff in H as [Hc Hb]. apply Z.leb_le in Hb.
    pose proof (canonical_below_overflow m e Hc Hb). lia.
Qed.

Lemma SFleb_of_xval (x y : spec_float) :
  good x = true -> good y = true -> xval x <= xval y -> SFleb x y = true.
Proof.
  intros Gx Gy H.
  pose proof (good_xval_le_overflow y Gy) as Hy.
  destruct x as [sx|sx| |sx mx ex]; try discriminate Gx;
  destruct y as [sy|sy| |sy my ey]; try discriminate Gy;
  simpl in Gx, Gy.
  - reflexivity.
  - now destruct sy.
  - apply andb_true_iff in Gy as [Sy _]. now destruct sy.
  - pose proof overflow_value_pos. simpl in H. lia.
  - destruct sx, sy; try discriminate; reflexivity.
  - simpl in H, Hy.
    apply andb_true_iff in Gy as [_ Gy]. unfold bounded in Gy.
    apply andb_true_iff in Gy as [Hc Hb]. apply Z.leb_le in Hb.
    pose proof (canonical_below_overflow my ey Hc Hb). lia.
  - apply andb_true_iff in Gx as [_ Gx]. unfold bounded in Gx.
    apply andb_true_iff in Gx as [Hc _].
    destruct (canonical_facts mx ex Hc) as (Hmin & _).
    pose proof (ival_pos mx ex Hmin). simpl in H. lia.
  - apply andb_true_iff in Gx as [Sx _]. destruct sx; try discriminate.
    now destruct sy.
  - apply andb_true_iff in Gx as [Sx Gx]. destruct sx; try discriminate.
    apply andb_true_iff in Gy as [Sy Gy]. destruct sy; try discriminate.
    unfold bounded in Gx, Gy.
    apply andb_true_iff in Gx as [Cx _]. apply andb_true_iff in Gy as [Cy _].
    destruct (canonical_facts mx ex Cx) as (Hminx & Hdx & Hnx).
    destruct (canonical_facts my ey Cy) as (Hminy & Hdy & Hny).
    pose proof (Zdigits2_spec (Zpos mx) ltac:(lia)) as [Hlox Hhix].
    pose proof (Zdigits2_spec (Zpos my) ltac:(lia)) as [Hloy Hhiy].
    simpl in H. unfold ival in H. unfold SFleb, SFcompare.
    unfold emin in *.
    destruct (Z.compare_spec ex ey) as [E|E|E].
    + subst ey.
      pose proof (pow2_pos (ex - -1074) ltac:(lia)) as Hp.
      assert (Hm : (mx <= my)%positive).
      { forget (2 ^ (ex - -1074)) as a.
        assert (Zpos mx <= Zpos my) by nia. lia. }
      rewrite Pos.compare_cont_spec. simpl.
      destruct (Pos.compare_spec mx my); try reflexivity; lia.
    + reflexivity.
    + exfalso.
      rewrite Hnx in Hlox by lia. change (53 - 1) with 52 in Hlox.
      assert (Hmy : Zpos my < 2 ^ 53).
      { apply Z.lt_le_trans with (1 := Hhiy). apply pow2_le.
        pose proof (Zdigits2_nonneg (Zpos my)). lia. }
      replace (ex - -1074) with ((ex - ey - 1) + (1 + (ey - -1074))) in H
        by lia.
      rewrite !pow2_split in H by lia.
      pose proof (pow2_pos (ex - ey - 1) ltac:(lia)) as Hp1.
      pose proof (pow2_pos (ey - -1074) ltac:(lia)) as Hp2.
      change (2 ^ 1) with 2 in H. change (2 ^ 53) with (2 * 2 ^ 52) in Hmy.
      forget (2 ^ (ex - ey - 1)) as a.
      forget (2 ^ (ey - -1074)) as b.
      forget (2 ^ 52) as c.
      assert (Zpos mx * b <= Zpos mx * (a * (2 * b))) by nia.
      assert (c * (2 * b) <= Zpos mx * (2 * b)) by nia.
      nia.
Qed.

Lemma pos_iter_xO (m d : positive) :
  Zpos (Pos.iter xO m d) = Zpos m * 2 ^ Zpos d.
Proof.
  induction d as [|d IH] using Pos.peano_ind.
  - simpl. lia.
  - rewrite Pos.iter_succ, Pos2Z.inj_succ, Z.pow_succ_r by lia.
    rewrite Pos2Z.inj_xO, IH. ring.
Qed.

Lemma shl_align_spec (m : positive) (e e' : Z) :
  e' <= e ->
  Zpos (fst (shl_align m e e')) = Zpos m * 2 ^ (e - e')
  /\ snd (shl_align m e e') = e'.
Proof.
  intros H. unfold shl_align.
  destruct (e' - e) as [|p|p] eqn:E; try lia.
  - replace (e - e') with 0 by lia. simpl. split; lia.
  - replace (e - e') with (Zpos p) by lia. simpl.
    split; [apply pos_iter_xO|reflexivity].
Qed.

Lemma shl_align_id (m : positive) (e e' : Z) :
  e <= e' -> shl_align m e e' = (m, e).
Proof.
  intros H. unfold shl_align. destruct (e' - e) as [|p|p] eqn:E; try lia;
    reflexivity.
Qed.

Lemma mag_one (m : positive) (e : Z) :
  mag (Zpos m) 1 e = Zpos (digits2_pos m) + e.
Proof. unfold mag. now rewrite Z.div_1_r. Qed.

Lemma binary_round_spec (p : positive) (e : Z) :
  emin <= e ->
  good (binary_round prec emax false p e) = true
  /\ xval (binary_round prec emax false p e)
     = Z.min overflow_value (rounded (Zpos p * 2 ^ (e - emin)) 1 emin).
Proof.
  intros He. unfold binary_round.
  pose proof (fexp_eq (Zpos (digits2_pos p) + e)) as Hf.
  remember (fexp prec emax (Zpos (digits2_pos p) + e)) as f eqn:Ef.
  destruct (shl_align p e f) as [mz ez] eqn:Es.
  assert (H : Zpos mz = Zpos p * 2 ^ (e - ez) /\ emin <= ez <= e
              /\ ez <= f).
  { destruct (Z.le_gt_cases e f) as [L|L].
    - rewrite shl_align_id in Es by assumption. injection Es as <- <-.
      replace (e - e) with 0 by lia. change (2 ^ 0) with 1.
      split; [lia|]. lia.
    - destruct (shl_align_spec p e f ltac:(lia)) as [E1 E2].
      rewrite Es in E1, E2. simpl in E1, E2. subst ez.
      split; [exact E1|]. unfold emin in *. lia. }
  destruct H as (Em & Hez & Hf').
  assert (Hmag : mag (Zpos mz) 1 ez = Zpos (digits2_pos p) + e).
  { rewrite Em, <- (mag_one p e).
    rewrite <- (mag_rebase (Zpos p) 1 e (e - ez)) by lia.
    f_equal. lia. }
  assert (Hpre : ez <= fexp prec emax (mag (Zpos mz) 1 ez)).
  { rewrite Hmag, <- Ef. exact Hf'. }
  pose proof (binary_round_aux_spec (Zpos mz) 1 ez ltac:(lia) ltac:(lia) Hpre)
    as [G V].
  rewrite floor_loc_exact in G, V. cbn [fst snd] in G, V.
  split; [exact G|]. rewrite V. f_equal.
  rewrite <- (rounded_rebase (Zpos mz) 1 ez (ez - emin)) by lia.
  replace (ez - (ez - emin)) with emin by lia. f_equal.
  rewrite Em, <- Z.mul_assoc, <- pow2_split by lia.
  f_equal. f_equal. lia.
Qed.

Lemma good_finite (s : bool) (m : positive) (e : Z) :
  good (S754_finite s m e) = true ->
  s = false /\ canonical_mantissa prec emax m e = true /\ emin <= e
  /\ e <= emax - prec.
Proof.
  simpl. intros H. apply andb_true_iff in H as [Hs H]. unfold bounded in H.
  apply andb_true_iff in H as [Hc Hb]. apply Z.leb_le in Hb.
  destruct (canonical_facts m e Hc) as (Hmin & _).
  destruct s; [discriminate|]. auto.
Qed.

(** Rounding leaves a representable value unchanged. *)
Lemma rounded_representable (m : positive) (e : Z) :
  canonical_mantissa prec emax m e = true ->
  rounded (ival m e) 1 emin = ival m e.
Proof.
  intros Hc. destruct (canonical_facts m e Hc) as (Hmin & _).
  assert (Hpre : e <= fexp prec emax (mag (Zpos m) 1 e)).
  { rewrite mag_one. unfold canonical_mantissa in Hc.
    apply Z.eqb_eq in Hc. lia. }
  unfold ival.
  pose proof (rounded_rebase (Zpos m) 1 e (e - emin) ltac:(lia) ltac:(lia) Hpre)
    as R.
  replace (e - (e - emin)) with emin in R by lia. rewrite R.
  unfold rounded. rewrite mag_one.
  unfold canonical_mantissa in Hc. apply Z.eqb_eq in Hc. rewrite Hc.
  replace (e - e) with 0 by lia. change (2 ^ 0) with 1.
  rewrite Z.mul_1_l. now rewrite div_half_even_exact.
Qed.

Lemma rounded_overflow (v : Z) :
  overflow_value <= v -> overflow_value <= rounded v 1 emin.
Proof.
  intros H. pose proof overflow_value_pos as Hp.
  assert (Hpre : forall n, emin <= fexp prec emax (mag n 1 emin)).
  { intros n. rewrite fexp_eq. unfold emin. lia. }
  apply Z.le_trans with (rounded overflow_value 1 emin).
  - pose proof (rounded_bounds overflow_value 1 emin ltac:(lia) ltac:(lia)
                  (Hpre _)) as [Hlo _].
    replace (mag overflow_value 1 emin - 1 - emin) with (emax - emin) in Hlo;
      [exact Hlo|].
    unfold mag. rewrite Z.div_1_r.
    rewrite (Zdigits2_unique overflow_value (emax - emin + 1)).
    + lia.
    + unfold overflow_value. replace (emax - emin + 1 - 1) with (emax - emin)
        by lia.
      split; [lia|]. apply pow2_lt. unfold emax, emin. lia.
    + unfold emax, emin. lia.
  - apply rounded_mono; try lia. apply Hpre.
Qed.

(** Addition of well-formed non-negative floats, the second one positive:
    the value of the sum is the rounded sum of the values. *)
Lemma add_spec (x t : spec_float) :
  good x = true -> good t = true -> 0 < xval t ->
  good (add x t) = true
  /\ xval (add x t) = rounded_sum (xval x) (xval t).
Proof.
  intros Gx Gt Ht. unfold rounded_sum.
  pose proof overflow_value_pos as Hov.
  pose proof (good_xval_nonneg x Gx) as Hx0.
  destruct t as [st|st| |st mt et]; try discriminate Gt; simpl in Ht;
    try lia.
  - (* the term is infinite *)
    simpl in Gt. destruct st; try discriminate.
    assert (E : add x (S754_infinity false) = S754_infinity false).
    { destruct x as [sx|sx| |sx mx ex]; try discriminate Gx;
        simpl in Gx; try reflexivity.
      destruct sx; [discriminate|reflexivity]. }
    rewrite E. split; [reflexivity|]. simpl.
    pose proof (rounded_overflow (xval x + overflow_value) ltac:(lia)). lia.
  - destruct (good_finite _ _ _ Gt) as (-> & Ct & Hmint & Hbt).
    destruct x as [sx|sx| |sx mx ex]; try discriminate Gx.
    + (* zero plus a float *)
      simpl in Gx. destruct sx; try discriminate.
      split; [exact Gt|]. simpl. rewrite Z.add_0_l.
      rewrite rounded_representable by assumption.
      pose proof (canonical_below_overflow mt et Ct Hbt). lia.
    + (* infinity plus a float *)
      simpl in Gx. destruct sx; try discriminate.
      split; [reflexivity|]. simpl.
      pose proof (ival_pos mt et Hmint).
      pose proof (rounded_overflow (overflow_value + ival mt et) ltac:(lia)).
      lia.
    + (* two finite floats *)
      destruct (good_finite _ _ _ Gx) as (-> & Cx & Hminx & Hbx).
      unfold add, SFadd. cbn [cond_Zopp].
      destruct (shl_align_spec mx ex (Z.min ex et) ltac:(lia)) as [E1 _].
      destruct (shl_align_spec mt et (Z.min ex et) ltac:(lia)) as [E2 _].
      rewrite <- Pos2Z.inj_add. cbn [binary_normalize].
      destruct (binary_round_spec
                  (fst (shl_align mx ex (Z.min ex et))
                   + fst (shl_align mt et (Z.min ex et)))
                  (Z.min ex et) ltac:(lia)) as [G V].
      split; [exact G|]. rewrite V. f_equal. f_equal.
      rewrite Pos2Z.inj_add, E1, E2. simpl. unfold ival.
      rewrite Z.mul_add_distr_r, <- !Z.mul_assoc, <- !pow2_split by lia.
      f_equal; f_equal; f_equal; lia.
Qed.

Lemma rounded_sum_mono (v1 v2 w : Z) :
  0 <= v1 <= v2 -> 0 < w -> rounded_sum v1 w <= rounded_sum v2 w.
Proof.
  intros H Hw. unfold rounded_sum.
  assert (rounded (v1 + w) 1 emin <= rounded (v2 + w) 1 emin).
  { apply rounded_mono; try lia. rewrite fexp_eq. unfold emin. lia. }
  lia.
Qed.

Lemma add_mono (x y t : spec_float) :
  good x = true -> good y = true -> good t = true -> 0 < xval t ->
  xval x <= xval y -> xval (add x t) <= xval (add y t).
Proof.
  intros Gx Gy Gt Ht H.
  destruct (add_spec x t Gx Gt Ht) as [_ ->].
  destruct (add_spec y t Gy Gt Ht) as [_ ->].
  apply rounded_sum_mono; [|exact Ht].
  pose proof (good_xval_nonneg x Gx). lia.
Qed.

Lemma add_increasing (x t : spec_float) :
  good x = true -> good t = true -> 0 < xval t ->
  xval x <= xval (add x t).
Proof.
  intros Gx Gt Ht.
  destruct (add_spec x t Gx Gt Ht) as [_ ->]. unfold rounded_sum.
  pose proof (good_xval_le_overflow x Gx) as Hov.
  apply Z.min_glb; [exact Hov|].
  destruct x as [sx|sx| |sx mx ex]; try discriminate Gx.
  - simpl. rewrite Z.add_0_l.
    pose proof (rounded_bounds (xval t) 1 emin ltac:(lia) ltac:(lia)) as B.
    assert (Hpre : emin <= fexp prec emax (mag (xval t) 1 emin))
      by (rewrite fexp_eq; unfold emin; lia).
    destruct (B Hpre) as [Hlo _].
    pose proof (Z.pow_nonneg 2 (mag (xval t) 1 emin - 1 - emin) ltac:(lia)).
    lia.
  - simpl. apply rounded_overflow. lia.
  - destruct (good_finite _ _ _ Gx) as (-> & Cx & Hminx & Hbx). simpl.
    rewrite <- (rounded_representable mx ex Cx) at 1.
    pose proof (ival_pos mx ex Hminx).
    apply rounded_mono; try lia. rewrite fexp_eq. unfold emin. lia.
Qed.

Lemma Zdigits2_pow2 (j : Z) : 0 <= j -> Zdigits2 (2 ^ j) = j + 1.
Proof.
  intros Hj. apply Zdigits2_unique; [|lia].
  replace (j + 1 - 1) with j by lia. split; [lia|]. apply pow2_lt. lia.
Qed.

Lemma Zdigits2_ge (n j : Z) : 0 <= j -> 2 ^ j <= n -> j + 1 <= Zdigits2 n.
Proof.
  intros Hj H. rewrite <- (Zdigits2_pow2 j Hj).
  apply Zdigits2_mono. pose proof (pow2_pos j Hj). lia.
Qed.

(** Quotients by one hundred: the scaled quotient has enough digits. *)
Lemma mag_hundred (n ex j : Z) :
  7 <= j -> 2 ^ j <= n -> j - 6 + ex <= mag n 100 ex.
Proof.
  intros Hj H. unfold mag.
  assert (2 ^ (j - 7) <= n / 100).
  { apply Z.div_le_lower_bound; [lia|].
    replace j with (7 + (j - 7)) in H by lia.
    rewrite pow2_split in H by lia. change (2 ^ 7) with 128 in H.
    pose proof (pow2_pos (j - 7) ltac:(lia)). lia. }
  pose proof (Zdigits2_ge (n / 100) (j - 7) ltac:(lia) ltac:(assumption)).
  forget (Zdigits2 (n / 100)) as k. lia.
Qed.

Lemma hundred_pre (h : Z) :
  0 < h ->
  100 <= h * 2 ^ 60
  /\ -60 <= fexp prec emax (mag (h * 2 ^ 60) 100 (-60)).
Proof.
  intros Hh.
  assert (H60 : 2 ^ 60 <= h * 2 ^ 60).
  { pose proof (pow2_pos 60 ltac:(lia)). nia. }
  split.
  - assert (100 <= 2 ^ 60) by (change (2 ^ 60) with (100 + (2 ^ 60 - 100));
      assert (0 <= 2 ^ 60 - 100) by (vm_compute; discriminate); lia).
    lia.
  - pose proof (mag_hundred (h * 2 ^ 60) (-60) 60 ltac:(lia) H60) as Hm.
    rewrite fexp_eq.
    forget (mag (h * 2 ^ 60) 100 (-60)) as g. lia.
Qed.

Lemma div_eucl_div_mod (a b : Z) :
  Z.div_eucl a b = (a / b, a mod b).
Proof. unfold Z.div, Z.modulo. now destruct (Z.div_eucl a b). Qed.

Lemma nearest_spec (q : positive) :
  good (nearest false (Zpos q) 100) = true
  /\ xval (nearest false (Zpos q) 100)
     = Z.min overflow_value (rounded (Zpos q * 2 ^ 60) 100 (-60)).
Proof.
  unfold nearest, SFdiv_core_binary.
  change (Zdigits2 100) with 7.
  pose proof (Zdigits2_spec (Zpos q) ltac:(lia)) as [Hlo _].
  pose proof (Zdigits2_pos (Zpos q) ltac:(lia)) as Hk.
  pose proof (fexp_eq (Zdigits2 (Zpos q) + 0 - (7 + 0))) as Hf.
  remember (Zdigits2 (Zpos q)) as k eqn:Ek.
  remember (fexp prec emax (k + 0 - (7 + 0))) as f eqn:Ef.
  remember (Z.min f (0 - 0)) as e' eqn:Ee.
  assert (He' : -60 < e' <= 0 /\ 60 <= k - e' /\ e' <= f) by lia.
  destruct He' as (He1 & He2 & He3).
  remember (0 - 0 - e') as s eqn:Es.
  assert (Em : match s with
               | 0 => Zpos q
               | Zpos _ => Z.shiftl (Zpos q) s
               | Zneg _ => 0
               end = Zpos q * 2 ^ s).
  { destruct s as [|p|p]; try lia. apply Z.shiftl_mul_pow2. lia. }
  rewrite Em. clear Em.
  rewrite div_eucl_div_mod.
  assert (El : new_location 100 ((Zpos q * 2 ^ s) mod 100)
               = snd (floor_loc (Zpos q * 2 ^ s) 100)) by reflexivity.
  rewrite El. clear El.
  change ((Zpos q * 2 ^ s) / 100) with (fst (floor_loc (Zpos q * 2 ^ s) 100)).
  assert (Hn : 2 ^ (k + s - 1) <= Zpos q * 2 ^ s).
  { replace (k + s - 1) with (k - 1 + s) by lia.
    rewrite pow2_split by lia.
    pose proof (pow2_pos s ltac:(lia)). nia. }
  assert (H100 : 100 <= Zpos q * 2 ^ s).
  { pose proof (pow2_le 7 (k + s - 1) ltac:(lia)) as H7.
    change (2 ^ 7) with 128 in H7. lia. }
  pose proof (mag_hundred (Zpos q * 2 ^ s) e' (k + s - 1) ltac:(lia) Hn) as Hm.
  assert (Hpre : e' <= fexp prec emax (mag (Zpos q * 2 ^ s) 100 e')).
  { apply Z.le_trans with (1 := He3). rewrite Ef. apply fexp_mono. lia. }
  destruct (binary_round_aux_spec (Zpos q * 2 ^ s) 100 e'
              ltac:(lia) ltac:(unfold emin; lia) Hpre) as [G V].
  split; [exact G|]. rewrite V. f_equal.
  rewrite <- (rounded_rebase (Zpos q * 2 ^ s) 100 e' (e' + 60)) by lia.
  replace (e' - (e' + 60)) with (-60) by lia. f_equal.
  rewrite <- Z.mul_assoc, <- pow2_split by lia. f_equal. f_equal. lia.
Qed.

Lemma hundredths_ival (m : positive) (e : Z) :
  emin <= e ->
  hundredths m e = div_half_even (100 * ival m e) (2 ^ 1074).
Proof.
  intros He.
  pose proof (pow2_pos 1074 ltac:(lia)) as Hp.
  assert (Hnn : 0 <= e ->
            div_half_even (100 * ival m e) (2 ^ 1074)
            = 100 * Zpos m * 2 ^ e).
  { intros H0.
    transitivity (div_half_even (2 ^ 1074 * (100 * Zpos m * 2 ^ e))
                    (2 ^ 1074 * 1)).
    - rewrite Z.mul_1_r. f_equal. unfold ival, emin.
      replace (e - -1074) with (e + 1074) by lia.
      rewrite pow2_split by lia. ring.
    - rewrite div_half_even_scale by lia. apply div_half_even_exact. }
  unfold hundredths, emin in *.
  destruct e as [|p|p].
  - now rewrite Hnn by lia.
  - now rewrite Hnn by lia.
  - rewrite <- (div_half_even_scale (2 ^ (Zneg p - -1074)) (100 * Zpos m)
                  (2 ^ Zpos p)) by (apply pow2_pos; lia).
    rewrite <- pow2_split by lia.
    replace (Zneg p - -1074 + Zpos p) with 1074 by lia.
    f_equal. unfold ival, emin. ring.
Qed.

Lemma rounded_hundredths_nonneg (v : Z) : 0 <= rounded_hundredths v.
Proof.
  unfold rounded_hundredths.
  destruct (Z.leb_spec (div_half_even (100 * v) (2 ^ 1074)) 0) as [H|H];
    [lia|].
  destruct (hundred_pre _ H) as [H1 H2].
  assert (Hmin : emin <= -60) by (unfold emin; lia).
  pose proof (rounded_bounds _ 100 (-60) (conj eq_refl H1) Hmin H2)
    as [Hlo _].
  pose proof overflow_value_pos.
  match type of Hlo with ?a <= _ => assert (0 <= a) by (apply Z.pow_nonneg; lia) end.
  lia.
Qed.

Lemma rounded_hundredths_mono (v1 v2 : Z) :
  v1 <= v2 -> rounded_hundredths v1 <= rounded_hundredths v2.
Proof.
  intros H.
  pose proof (rounded_hundredths_nonneg v2) as Hnn.
  assert (Hh : div_half_even (100 * v1) (2 ^ 1074)
               <= div_half_even (100 * v2) (2 ^ 1074)).
  { apply div_half_even_mono; [apply pow2_pos|]; lia. }
  unfold rounded_hundredths in *.
  destruct (Z.leb_spec (div_half_even (100 * v1) (2 ^ 1074)) 0) as [H1|H1];
    [exact Hnn|].
  destruct (Z.leb_spec (div_half_even (100 * v2) (2 ^ 1074)) 0) as [H2|H2];
    [lia|].
  destruct (hundred_pre _ H1) as [P1 P2].
  apply Z.min_le_compat_l.
  apply rounded_mono; try assumption; try (unfold emin; lia).
Qed.

Lemma round2_finite (m : positive) (e : Z) :
  good (S754_finite false m e) = true ->
  good (round2 (S754_finite false m e)) = true
  /\ xval (round2 (S754_finite false m e)) = rounded_hundredths (ival m e).
Proof.
  intros G. destruct (good_finite _ _ _ G) as (_ & Hc & Hmin & Hb).
  unfold round2, rounded_hundredths.
  rewrite <- (hundredths_ival m e Hmin).
  destruct (hundredths m e) as [|q|q] eqn:Eh.
  - split; reflexivity.
  - destruct (Z.leb_spec (Zpos q) 0); [lia|]. apply nearest_spec.
  - split; reflexivity.
Qed.

(** [round(x, 2)] is monotone on well-formed non-negative floats. *)
Lemma round2_mono (x y : spec_float) :
  good x = true -> good y = true -> xval x <= xval y ->
  good (round2 x) = true /\ good (round2 y) = true
  /\ xval (round2 x) <= xval (round2 y).
Proof.
  intros Gx Gy H.
  assert (R : forall z, good z = true ->
              good (round2 z) = true
              /\ (forall m e, z = S754_finite false m e ->
                    xval (round2 z) = rounded_hundredths (ival m e))).
  { intros z Gz. destruct z as [s|s| |s m e]; try discriminate Gz.
    - split; [exact Gz|discriminate].
    - split; [exact Gz|discriminate].
    - destruct (good_finite _ _ _ Gz) as (-> & _).
      destruct (round2_finite m e Gz) as [G V].
      split; [exact G|]. now intros m' e' [= <- <-]. }
  destruct (R x Gx) as [Gx' Vx]. destruct (R y Gy) as [Gy' Vy].
  split; [exact Gx'|]. split; [exact Gy'|].
  pose proof (good_xval_nonneg _ Gy') as Hy0.
  pose proof (good_xval_le_overflow _ Gx') as Hxo.
  pose proof overflow_value_pos as Hov.
  destruct x as [sx|sx| |sx mx ex]; try discriminate Gx.
  - exact Hy0.
  - destruct y as [sy|sy| |sy my ey]; try discriminate Gy.
    + simpl in H. lia.
    + simpl. lia.
    + pose proof (good_xval_le_overflow _ Gy) as Hy.
      destruct (good_finite _ _ _ Gy) as (_ & Hc & _ & Hb).
      pose proof (canonical_below_overflow my ey Hc Hb).
      simpl in H. lia.
  - destruct (good_finite _ _ _ Gx) as (-> & Hcx & Hminx & _).
    destruct y as [sy|sy| |sy my ey]; try discriminate Gy.
    + pose proof (ival_pos mx ex Hminx). simpl in H. lia.
    + exact Hxo.
    + destruct (good_finite _ _ _ Gy) as (-> & _).
      rewrite (Vx mx ex eq_refl), (Vy my ey eq_refl).
      apply rounded_hundredths_mono. exact H.
Qed.

End FloatFacts.

(** ** Auxiliary facts on lists and on the sum *)

Lemma fold_py_add_Float (l : list PyFloat.float) (a : PyFloat.float) :
  fold_left py_add (map Float l) (Float a) = Float (fold_left PyFloat.add l a).
Proof.
  revert a; induction l as [|x l IH]; intros a; simpl; [reflexivity|].
  now rewrite IH.
Qed.

Lemma rounded_sum_float (l : list PyFloat.float) :
  to_float (round (sum (map Float l))) = PyFloat.round2 (float_sum l).
Proof.
  destruct l as [|x l]; [reflexivity|].
  unfold sum, float_sum; simpl.
  now rewrite fold_py_add_Float.
Qed.

Lemma spending_transactions_app (l1 l2 : list Transaction) :
  spending_transactions (l1 ++ l2)
  = spending_transactions l1 ++ spending_transactions l2.
Proof. apply filter_app. Qed.

Section Terms.

Variable today : date.

Lemma daily_terms_app l1 l2 :
  daily_terms today (l1 ++ l2) = daily_terms today l1 ++ daily_terms today l2.
Proof.
  unfold daily_terms; now rewrite spending_transactions_app, filter_app, map_app.
Qed.

Lemma weekly_terms_app l1 l2 :
  weekly_terms today (l1 ++ l2) = weekly_terms today l1 ++ weekly_terms today l2.
Proof.
  unfold weekly_terms; now rewrite spending_transactions_app, filter_app, map_app.
Qed.

Lemma monthly_terms_app l1 l2 :
  monthly_terms (l1 ++ l2) = monthly_terms l1 ++ monthly_terms l2.
Proof.
  unfold monthly_terms; now rewrite spending_transactions_app, map_app.
Qed.

Lemma daily_terms_one t :
  daily_terms today [t]
  = if gt0 (amount t) && (yesterday today <=? date_of t) then [amount t] else [].
Proof.
  unfold daily_terms, spending_transactions; simpl.
  destruct (gt0 (amount t)); simpl; [|reflexivity].
  now destruct (yesterday today <=? date_of t).
Qed.

Lemma weekly_terms_one t :
  weekly_terms today [t]
  = if gt0 (amount t) && (week_ago today <=? date_of t) then [amount t] else [].
Proof.
  unfold weekly_terms, spending_transactions; simpl.
  destruct (gt0 (amount t)); simpl; [|reflexivity].
  now destruct (week_ago today <=? date_of t).
Qed.

Lemma monthly_terms_one t :
  monthly_terms [t] = if gt0 (amount t) then [amount t] else [].
Proof.
  unfold monthly_terms, spending_transactions; simpl.
  now destruct (gt0 (amount t)).
Qed.

End Terms.

Lemma daily_terms_insert today l1 t l2 :
  daily_terms today (l1 ++ t :: l2)
  = daily_terms today l1 ++ daily_terms today [t] ++ daily_terms today l2.
Proof.
  change (t :: l2) with ([t] ++ l2); now rewrite !daily_terms_app.
Qed.

Lemma weekly_terms_insert today l1 t l2 :
  weekly_terms today (l1 ++ t :: l2)
  = weekly_terms today l1 ++ weekly_terms today [t] ++ weekly_terms today l2.
Proof.
  change (t :: l2) with ([t] ++ l2); now rewrite !weekly_terms_app.
Qed.

Lemma monthly_terms_insert l1 t l2 :
  monthly_terms (l1 ++ t :: l2)
  = monthly_terms l1 ++ monthly_terms [t] ++ monthly_terms l2.
Proof.
  change (t :: l2) with ([t] ++ l2); now rewrite !monthly_terms_app.
Qed.

(** The three fields of the response, as rounded binary64 sums. *)
Lemma spending_fields today ts :
  daily (spending today ts) = PyFloat.round2 (float_sum (daily_terms today ts))
  /\ weekly (spending today ts) = PyFloat.round2 (float_sum (weekly_terms today ts))
  /\ monthly (spending today ts) = PyFloat.round2 (float_sum (monthly_terms ts)).
Proof.
  unfold spending, daily_sum, weekly_sum, monthly_sum; simpl.
  now rewrite !rounded_sum_float.
Qed.

(** A float that is greater than zero is not less than or equal to it. *)
Lemma gt0_not_le0 (x : PyFloat.float) : gt0 x = true -> le0 x = false.
Proof.
  unfold gt0, le0, PyFloat.ltb, PyFloat.leb, SFltb, SFleb, PyFloat.zero.
  destruct x as [s|s| |s m e]; simpl; try discriminate; destruct s; simpl;
    congruence.
Qed.

(** Adding a positive float to zero gives that float. *)
Lemma add_zero_gt0 (x : PyFloat.float) :
  gt0 x = true -> PyFloat.add PyFloat.zero x = x.
Proof.
  unfold gt0, PyFloat.ltb, SFltb, PyFloat.zero.
  destruct x as [s|s| |s m e]; simpl; try discriminate; reflexivity.
Qed.

(** ** Sanity checks of the float model

    Values observed in the interpreter: [0.1 + 0.2] is
    [0.30000000000000004]; [round(0.125, 2)] is [0.12], [round(0.375, 2)]
    is [0.38] and [round(2.675, 2)] is [2.67]. *)

Example add_tenth_fifth :
  PyFloat.add (PyFloat.of_decimal 1 1) (PyFloat.of_decimal 2 1)
  = PyFloat.of_decimal 30000000000000004 17
  /\ PyFloat.eqb (PyFloat.add (PyFloat.of_decimal 1 1) (PyFloat.of_decimal 2 1))
       (PyFloat.of_decimal 3 1) = false.
Proof. split; vm_compute; reflexivity. Qed.

Example round2_ties :
  PyFloat.round2 (PyFloat.of_decimal 125 3) = PyFloat.of_decimal 12 2
  /\ PyFloat.round2 (PyFloat.of_decimal 375 3) = PyFloat.of_decimal 38 2
  /\ PyFloat.round2 (PyFloat.of_decimal 2675 3) = PyFloat.of_decimal 267 2.
Proof. repeat split; vm_compute; reflexivity. Qed.

(** ** The worked example *)

(** C2 (as amended): on the example of the specification the response is
    daily 10.51, weekly 30.51 and monthly 130.5: the binary64 sum
    10.505 + 20.0 + 100.0 lies below the decimal 130.505 and rounds down. *)
Theorem example_spending :
  spending example_today example_transactions
  = {| daily := PyFloat.of_decimal 1051 2;
       weekly := PyFloat.of_decimal 3051 2;
       monthly := PyFloat.of_decimal 1305 1 |}.
Proof. vm_compute. reflexivity. Qed.

(** C2 (as stated) fails: the monthly figure of the example is not the
    float 130.51, it even compares different from it. *)
Lemma example_monthly_is_not_130_51 :
  ~ (daily (spending example_today example_transactions)
       = PyFloat.of_decimal 1051 2
     /\ weekly (spending example_today example_transactions)
       = PyFloat.of_decimal 3051 2
     /\ monthly (spending example_today example_transactions)
       = PyFloat.of_decimal 13051 2).
Proof.
  intros (_ & _ & H).
  assert (E : PyFloat.eqb (monthly (spending example_today example_transactions))
                (PyFloat.of_decimal 13051 2) = false) by (vm_compute; reflexivity).
  rewrite H in E. vm_compute in E. discriminate E.
Qed.

(** ** Non-positive amounts *)

(** C3: removing every transaction whose amount is [<= 0] from the input
    leaves the response unchanged. *)
Theorem spending_ignores_nonpositive (today : date) (ts : list Transaction) :
  spending today (filter (fun t => negb (le0 (amount t))) ts)
  = spending today ts.
Proof.
  assert (E : spending_transactions (filter (fun t => negb (le0 (amount t))) ts)
              = spending_transactions ts).
  { unfold spending_transactions.
    induction ts as [|t ts IH]; simpl; [reflexivity|].
    destruct (gt0 (amount t)) eqn:G.
    - rewrite (gt0_not_le0 _ G); simpl. now rewrite G, IH.
    - destruct (le0 (amount t)); simpl; [exact IH|]. now rewrite G. }
  unfold spending, daily_sum, weekly_sum, monthly_sum,
    daily_terms, weekly_terms, monthly_terms.
  now rewrite E.
Qed.

(** ** Window boundaries *)

(** The two sides of the weekly window, for a transaction given by its
    date. *)
Lemma weekly_window_edge (today : date) (before after : list Transaction)
  (t : Transaction) (Hpos : gt0 (amount t) = true) :
  (date_of t = minus_days today 7 ->
     weekly_terms today (before ++ t :: after)
     = weekly_terms today before ++ amount t :: weekly_terms today after
     /\ weekly (spending today [t]) = PyFloat.round2 (amount t))
  /\ (date_of t = minus_days today 8 ->
     weekly_terms today (before ++ t :: after)
     = weekly_terms today (before ++ after)
     /\ weekly (spending today (before ++ t :: after))
        = weekly (spending today (before ++ after))
     /\ weekly (spending today [t]) = PyFloat.zero).
Proof.
  split; intros Hd.
  - assert (E : weekly_terms today [t] = [amount t]).
    { rewrite weekly_terms_one, Hpos, Hd; unfold week_ago, minus_days; simpl.
      now rewrite Z.leb_refl. }
    split.
    + now rewrite weekly_terms_insert, E.
    + destruct (spending_fields today [t]) as (_ & -> & _).
      rewrite E; unfold float_sum; cbn [fold_left]. now rewrite add_zero_gt0.
  - assert (E : weekly_terms today [t] = []).
    { rewrite weekly_terms_one, Hpos, Hd; unfold week_ago, minus_days; simpl.
      replace (today - 7 <=? today - 8) with false; [reflexivity|].
      symmetry; apply Z.leb_gt; lia. }
    assert (E' : weekly_terms today (before ++ t :: after)
                 = weekly_terms today (before ++ after))
      by now rewrite weekly_terms_insert, E, weekly_terms_app.
    repeat split.
    + exact E'.
    + destruct (spending_fields today (before ++ t :: after)) as (_ & -> & _).
      destruct (spending_fields today (before ++ after)) as (_ & -> & _).
      now rewrite E'.
    + destruct (spending_fields today [t]) as (_ & -> & _). now rewrite E.
Qed.

(** C4: a positive transaction dated seven days before the reference date
    is one of the terms of the weekly sum, at its place in the list; one
    dated eight days before is not, and the weekly total is the one of the
    list without it.  On its own the first gives [round(amount, 2)], the
    second gives zero. *)
Theorem weekly_boundary (today : date) (before after : list Transaction)
  (a : PyFloat.float) (Hpos : gt0 a = true) :
  let t7 := {| amount := a; date_of := minus_days today 7 |} in
  let t8 := {| amount := a; date_of := minus_days today 8 |} in
  weekly_terms today (before ++ t7 :: after)
  = weekly_terms today before ++ a :: weekly_terms today after
  /\ weekly (spending today [t7]) = PyFloat.round2 a
  /\ weekly_terms today (before ++ t8 :: after)
     = weekly_terms today (before ++ after)
  /\ weekly (spending today (before ++ t8 :: after))
     = weekly (spending today (before ++ after))
  /\ weekly (spending today [t8]) = PyFloat.zero.
Proof.
  intros t7 t8.
  destruct (proj1 (weekly_window_edge today before after t7 Hpos) eq_refl)
    as (H1 & H2).
  destruct (proj2 (weekly_window_edge today before after t8 Hpos) eq_refl)
    as (H3 & H4 & H5).
  auto.
Qed.

Lemma weekly_boundary_witness :
  gt0 (PyFloat.of_decimal 1250 2) = true
  /\ weekly (spending example_today [boundary_transaction (ymd 2024 6 8)])
     = PyFloat.of_decimal 125 1
  /\ weekly (spending example_today [boundary_transaction (ymd 2024 6 7)])
     = PyFloat.zero.
Proof.
  split; [reflexivity|].
  pose proof (weekly_boundary example_today [] [] (PyFloat.of_decimal 1250 2)
                eq_refl) as H.
  split; [exact (proj1 (proj2 H))|exact (proj2 (proj2 (proj2 (proj2 H))))].
Defined.

(** The two sides of the daily window, for a transaction given by its
    date. *)
Lemma daily_window_edge (today : date) (before after : list Transaction)
  (t : Transaction) (Hpos : gt0 (amount t) = true) :
  (date_of t = minus_days today 1 ->
     daily_terms today (before ++ t :: after)
     = daily_terms today before ++ amount t :: daily_terms today after
     /\ daily (spending today [t]) = PyFloat.round2 (amount t))
  /\ (date_of t = minus_days today 2 ->
     daily_terms today (before ++ t :: after)
     = daily_terms today (before ++ after)
     /\ daily (spending today (before ++ t :: after))
        = daily (spending today (before ++ after))
     /\ daily (spending today [t]) = PyFloat.zero
     /\ weekly_terms today (before ++ t :: after)
        = weekly_terms today before ++ amount t :: weekly_terms today after
     /\ monthly_terms (before ++ t :: after)
        = monthly_terms before ++ amount t :: monthly_terms after
     /\ weekly (spending today [t]) = PyFloat.round2 (amount t)
     /\ monthly (spending today [t]) = PyFloat.round2 (amount t)).
Proof.
  split; intros Hd.
  - assert (E : daily_terms today [t] = [amount t]).
    { rewrite daily_terms_one, Hpos, Hd; unfold yesterday, minus_days; simpl.
      now rewrite Z.leb_refl. }
    split.
    + now rewrite daily_terms_insert, E.
    + destruct (spending_fields today [t]) as (-> & _ & _).
      rewrite E; unfold float_sum; cbn [fold_left]. now rewrite add_zero_gt0.
  - assert (E : daily_terms today [t] = []).
    { rewrite daily_terms_one, Hpos, Hd; unfold yesterday, minus_days; simpl.
      replace (today - 1 <=? today - 2) with false; [reflexivity|].
      symmetry; apply Z.leb_gt; lia. }
    assert (E' : daily_terms today (before ++ t :: after)
                 = daily_terms today (before ++ after))
      by now rewrite daily_terms_insert, E, daily_terms_app.
    assert (W : weekly_terms today [t] = [amount t]).
    { rewrite weekly_terms_one, Hpos, Hd; unfold week_ago, minus_days; simpl.
      replace (today - 7 <=? today - 2) with true; [reflexivity|].
      symmetry; apply Z.leb_le; lia. }
    assert (M : monthly_terms [t] = [amount t])
      by now rewrite monthly_terms_one, Hpos.
    destruct (spending_fields today [t]) as (D1 & W1 & M1).
    repeat split.
    + exact E'.
    + destruct (spending_fields today (before ++ t :: after)) as (-> & _ & _).
      destruct (spending_fields today (before ++ after)) as (-> & _ & _).
      now rewrite E'.
    + now rewrite D1, E.
    + now rewrite weekly_terms_insert, W.
    + now rewrite monthly_terms_insert, M.
    + rewrite W1, W; unfold float_sum; cbn [fold_left]. now rewrite add_zero_gt0.
    + rewrite M1, M; unfold float_sum; cbn [fold_left]. now rewrite add_zero_gt0.
Qed.

(** C5: a positive transaction dated one day before the reference date is
    one of the terms of the daily sum; one dated two days before is not a
    term of the daily sum, the daily total is the one of the list without
    it, and it is a term of the weekly and of the monthly sum. *)
Theorem daily_boundary (today : date) (before after : list Transaction)
  (a : PyFloat.float) (Hpos : gt0 a = true) :
  let t1 := {| amount := a; date_of := minus_days today 1 |} in
  let t2 := {| amount := a; date_of := minus_days today 2 |} in
  (daily_terms today (before ++ t1 :: after)
   = daily_terms today before ++ a :: daily_terms today after
   /\ daily (spending today [t1]) = PyFloat.round2 a)
  /\ (daily_terms today (before ++ t2 :: after)
      = daily_terms today (before ++ after)
      /\ daily (spending today (before ++ t2 :: after))
         = daily (spending today (before ++ after))
      /\ daily (spending today [t2]) = PyFloat.zero
      /\ weekly_terms today (before ++ t2 :: after)
         = weekly_terms today before ++ a :: weekly_terms today after
      /\ monthly_terms (before ++ t2 :: after)
         = monthly_terms before ++ a :: monthly_terms after
      /\ weekly (spending today [t2]) = PyFloat.round2 a
      /\ monthly (spending today [t2]) = PyFloat.round2 a).
Proof.
  intros t1 t2. split.
  - exact (proj1 (daily_window_edge today before after t1 Hpos) eq_refl).
  - exact (proj2 (daily_window_edge today before after t2 Hpos) eq_refl).
Qed.

Lemma daily_boundary_witness :
  gt0 (PyFloat.of_decimal 1250 2) = true
  /\ daily (spending example_today [boundary_transaction (ymd 2024 6 14)])
     = PyFloat.of_decimal 125 1
  /\ daily (spending example_today [boundary_transaction (ymd 2024 6 13)])
     = PyFloat.zero
  /\ weekly (spending example_today [boundary_transaction (ymd 2024 6 13)])
     = PyFloat.of_decimal 125 1.
Proof.
  split; [reflexivity|].
  pose proof (daily_boundary example_today [] [] (PyFloat.of_decimal 1250 2)
                eq_refl) as [H1 H2].
  split; [exact (proj2 H1)|].
  split; [exact (proj1 (proj2 (proj2 H2)))|].
  exact (proj1 (proj2 (proj2 (proj2 (proj2 (proj2 H2)))))).
Defined.

(** C10: a positive transaction dated after the reference date is a term
    of the daily, of the weekly and of the monthly sum, at its place in the
    list; on its own it gives [round(amount, 2)] for all three. *)
Theorem future_transaction_counted (today : date)
  (before after : list Transaction) (t : Transaction)
  (Hpos : gt0 (amount t) = true) (Hfuture : today < date_of t) :
  daily_terms today (before ++ t :: after)
  = daily_terms today before ++ amount t :: daily_terms today after
  /\ weekly_terms today (before ++ t :: after)
     = weekly_terms today before ++ amount t :: weekly_terms today after
  /\ monthly_terms (before ++ t :: after)
     = monthly_terms before ++ amount t :: monthly_terms after
  /\ spending today [t]
     = {| daily := PyFloat.round2 (amount t);
          weekly := PyFloat.round2 (amount t);
          monthly := PyFloat.round2 (amount t) |}.
Proof.
  assert (D : daily_terms today [t] = [amount t]).
  { rewrite daily_terms_one, Hpos; unfold yesterday, minus_days; simpl.
    replace (today - 1 <=? date_of t) with true; [reflexivity|].
    symmetry; apply Z.leb_le; lia. }
  assert (W : weekly_terms today [t] = [amount t]).
  { rewrite weekly_terms_one, Hpos; unfold week_ago, minus_days; simpl.
    replace (today - 7 <=? date_of t) with true; [reflexivity|].
    symmetry; apply Z.leb_le; lia. }
  assert (M : monthly_terms [t] = [amount t])
    by now rewrite monthly_terms_one, Hpos.
  repeat split.
  - now rewrite daily_terms_insert, D.
  - now rewrite weekly_terms_insert, W.
  - now rewrite monthly_terms_insert, M.
  - destruct (spending_fields today [t]) as (D1 & W1 & M1).
    destruct (spending today [t]) as [d w m]; simpl in *; subst d w m.
    rewrite D, W, M; unfold float_sum; cbn [fold_left]. now rewrite add_zero_gt0.
Qed.

Lemma future_transaction_counted_witness :
  gt0 (amount (boundary_transaction (ymd 2024 7 1))) = true
  /\ example_today < date_of (boundary_transaction (ymd 2024 7 1))
  /\ daily_terms example_today ([] ++ boundary_transaction (ymd 2024 7 1) :: [])
     = [PyFloat.of_decimal 1250 2].
Proof.
  split; [reflexivity|]. split; [reflexivity|].
  exact (proj1 (future_transaction_counted example_today [] []
                  (boundary_transaction (ymd 2024 7 1)) eq_refl eq_refl)).
Defined.

(** ** The empty list *)

(** C6: on the empty transaction list the three fields are [0.0], for
    every reference date. *)
Theorem spending_empty (today : date) :
  spending today []
  = {| daily := PyFloat.zero; weekly := PyFloat.zero; monthly := PyFloat.zero |}.
Proof. reflexivity. Qed.

(** ** The monthly total *)

(** C8: the monthly field is the rounded sum of all positive amounts of the
    list; it does not depend on the reference date nor on the dates of the
    transactions. *)
Theorem monthly_all_positive (today : date) (ts : list Transaction) :
  monthly (spending today ts)
  = PyFloat.round2
      (float_sum (map amount (filter (fun t => gt0 (amount t)) ts)))
  /\ forall (today' : date) (ts' : list Transaction),
       map amount ts' = map amount ts ->
       monthly (spending today' ts') = monthly (spending today ts).
Proof.
  split.
  - now destruct (spending_fields today ts) as (_ & _ & ->).
  - intros today' ts' E.
    destruct (spending_fields today ts) as (_ & _ & ->).
    destruct (spending_fields today' ts') as (_ & _ & ->).
    f_equal; f_equal. unfold monthly_terms, spending_transactions.
    revert ts E; induction ts' as [|t' ts' IH]; intros [|t ts] E;
      simpl in *; try discriminate; [reflexivity|].
    injection E as E1 E2. rewrite E1.
    destruct (gt0 (amount t)); simpl; [f_equal; [exact E1|]|]; now apply IH.
Qed.

(** ** Errors *)

Lemma select_well_typed (exn : Type) (ts : list Transaction) :
  Dynamic.select (exn := exn)
    (fun t => a <- Dynamic.getitem t "amount" ;; Dynamic.gt_zero a)
    (map Dynamic.transaction_value ts)
  = Returned (map Dynamic.transaction_value (spending_transactions ts)).
Proof.
  induction ts as [|t ts IH]; [reflexivity|].
  cbn [map Dynamic.select]. rewrite IH. unfold spending_transactions.
  cbn. destruct (gt0 (amount t)); reflexivity.
Qed.

Lemma sum_amounts_well_typed (exn : Type) (first : date)
  (ts : list Transaction) (acc : number) :
  Dynamic.sum_amounts (exn := exn)
    (fun t => d <- Dynamic.getitem t "date" ;; Dynamic.ge_date d first)
    (map Dynamic.transaction_value ts) acc
  = Returned
      (fold_left py_add
         (map Float (map amount (filter (fun t => first <=? date_of t) ts)))
         acc).
Proof.
  revert acc. induction ts as [|t ts IH]; intros acc; [reflexivity|].
  cbn [map Dynamic.sum_amounts]. cbn.
  destruct (first <=? date_of t); cbn; apply IH.
Qed.

Lemma sum_amounts_all_well_typed (exn : Type) (ts : list Transaction)
  (acc : number) :
  Dynamic.sum_amounts (exn := exn) (fun _ => Returned true)
    (map Dynamic.transaction_value ts) acc
  = Returned (fold_left py_add (map Float (map amount ts)) acc).
Proof.
  revert acc. induction ts as [|t ts IH]; intros acc; [reflexivity|].
  cbn [map Dynamic.sum_amounts]. cbn. apply IH.
Qed.

(** On an answer that has the expected keys and types, and with a clock
    that is not within a month of [date.min], the handler that indexes the
    answer returns the response computed by [spending]. *)
Lemma get_spending_well_typed (exn : Type) (client : Dynamic.PlaidApi exn)
  (now_1 now_2 : date) (token : string) (ts : list Transaction) :
  31 <= now_1 <= Dynamic.max_ordinal ->
  8 <= now_2 <= Dynamic.max_ordinal ->
  Dynamic.transactions_get client
    {| access_token_field := token;
       start_date := now_1 - 30;
       end_date := now_1 |}
  = Returned (Dynamic.transactions_value ts) ->
  Dynamic.get_spending_try client now_1 now_2 token
  = Returned (Dynamic.SpendingBody (spending now_2 ts)).
Proof.
  intros H1 H2 Hc. unfold Dynamic.get_spending_try, Dynamic.minus_days.
  unfold Dynamic.max_ordinal in *.
  replace ((1 <=? now_1 - 30) && (now_1 - 30 <=? 3652059)) with true
    by (symmetry; apply andb_true_iff; split; apply Z.leb_le; lia).
  replace ((1 <=? now_2 - 1) && (now_2 - 1 <=? 3652059)) with true
    by (symmetry; apply andb_true_iff; split; apply Z.leb_le; lia).
  replace ((1 <=? now_2 - 7) && (now_2 - 7 <=? 3652059)) with true
    by (symmetry; apply andb_true_iff; split; apply Z.leb_le; lia).
  cbn [bind]. rewrite Hc. cbn [Dynamic.call bind].
  unfold Dynamic.transactions_value.
  cbn [Dynamic.getitem Dynamic.lookup String.eqb Ascii.eqb Bool.eqb bind
       Dynamic.iterate].
  rewrite select_well_typed. cbn [bind].
  rewrite !sum_amounts_well_typed, sum_amounts_all_well_typed. cbn [bind].
  reflexivity.
Qed.


(** The failure points of [get_spending] other than the call of the
    provider, each on a concrete answer: a clock in the first month of the
    calendar, an answer without transactions, an answer that is no
    collection, a transaction without amount, an amount that is no number,
    and a date that is no date. *)
Example failure_points_of_get_spending :
  let run now v :=
    Dynamic.get_spending (fun e : string => e) (Dynamic.answering v)
      now now "token" in
  let raised (text : string) : result HTTPException Dynamic.body :=
    Raised {| status_code := 400;
              detail := "Error fetching spending: " ++ text |} in
  run 20 (Dynamic.transactions_value []) = raised "date value out of range"%string
  /\ run example_today (Dynamic.VDict []) = raised "'transactions'"%string
  /\ run example_today
       (Dynamic.VDict [("transactions"%string, Dynamic.VNone)])
     = raised "'NoneType' object is not iterable"%string
  /\ run example_today
       (Dynamic.VDict
          [("transactions"%string,
            Dynamic.VList
              [Dynamic.VDict [("date"%string, Dynamic.VDate example_today)]])])
     = raised "'amount'"%string
  /\ run example_today
       (Dynamic.VDict
          [("transactions"%string,
            Dynamic.VList
              [Dynamic.VDict [("amount"%string, Dynamic.VNone);
                              ("date"%string, Dynamic.VDate example_today)]])])
     = raised "'>' not supported between instances of 'NoneType' and 'int'"%string
  /\ run example_today
       (Dynamic.VDict
          [("transactions"%string,
            Dynamic.VList
              [Dynamic.VDict
                 [("amount"%string, Dynamic.VFloat (PyFloat.of_decimal 1250 2));
                  ("date"%string, Dynamic.VStr "2024-06-15")]])])
     = raised "'>=' not supported between instances of 'str' and 'datetime.date'"%string.
Proof. repeat split; vm_compute; reflexivity. Qed.

Lemma monthly_all_positive_witness :
  monthly (spending (ymd 2023 1 1)
             [boundary_transaction (ymd 2020 2 29)])
  = monthly (spending example_today [boundary_transaction (ymd 2024 6 14)]).
Proof.
  exact (proj2 (monthly_all_positive example_today
                  [boundary_transaction (ymd 2024 6 14)])
           (ymd 2023 1 1) [boundary_transaction (ymd 2020 2 29)] eq_refl).
Defined.


(** ** Order of the totals *)

Lemma gt0_good (x : PyFloat.float) :
  valid_binary PyFloat.prec PyFloat.emax x = true -> gt0 x = true ->
  good x = true /\ 0 < xval x.
Proof.
  unfold gt0, PyFloat.ltb, SFltb, PyFloat.zero.
  destruct x as [s|s| |s m e]; simpl; try discriminate.
  - destruct s; try discriminate. intros _ _.
    split; [reflexivity|apply FloatFacts.overflow_value_pos].
  - destruct s; try discriminate. intros Hb _. split; [exact Hb|].
    unfold bounded in Hb. apply andb_true_iff in Hb as [Hc _].
    destruct (FloatFacts.canonical_facts m e Hc) as (Hmin & _).
    now apply FloatFacts.ival_pos.
Qed.

Lemma spending_transactions_good (ts : list Transaction) :
  well_formed ts ->
  Forall (fun t => good (amount t) = true /\ 0 < xval (amount t))
    (spending_transactions ts).
Proof.
  unfold well_formed, spending_transactions. rewrite !Forall_forall.
  intros H t Ht. apply filter_In in Ht as [Hin Hpos].
  apply gt0_good; [now apply H|exact Hpos].
Qed.

(** Summing fewer of the terms gives a smaller sum. *)
Lemma float_sum_filter_le (p1 p2 : Transaction -> bool)
  (l : list Transaction) :
  (forall t, p1 t = true -> p2 t = true) ->
  Forall (fun t => good (amount t) = true /\ 0 < xval (amount t)) l ->
  forall a1 a2 : PyFloat.float,
    good a1 = true -> good a2 = true -> xval a1 <= xval a2 ->
    good (fold_left PyFloat.add (map amount (filter p1 l)) a1) = true
    /\ good (fold_left PyFloat.add (map amount (filter p2 l)) a2) = true
    /\ xval (fold_left PyFloat.add (map amount (filter p1 l)) a1)
       <= xval (fold_left PyFloat.add (map amount (filter p2 l)) a2).
Proof.
  intros Hsub Hl.
  induction Hl as [|t l [Gt Ht] Hl IH]; intros a1 a2 G1 G2 H; simpl.
  - auto.
  - destruct (FloatFacts.add_spec a1 (amount t) G1 Gt Ht) as [G1' _].
    destruct (FloatFacts.add_spec a2 (amount t) G2 Gt Ht) as [G2' _].
    destruct (p1 t) eqn:E1.
    + rewrite (Hsub t E1). simpl. apply IH; try assumption.
      now apply FloatFacts.add_mono.
    + destruct (p2 t); simpl.
      * apply IH; try assumption.
        apply Z.le_trans with (1 := H).
        now apply FloatFacts.add_increasing.
      * now apply IH.
Qed.

Lemma filter_all {A : Type} (l : list A) : filter (fun _ => true) l = l.
Proof. induction l as [|a l IH]; simpl; congruence. Qed.




(** ** Rounding *)

Module Hundredths.

Import PyFloat FloatFacts.

#[local] Arguments Z.mul : simpl never.
#[local] Arguments Z.add : simpl never.
#[local] Arguments Z.sub : simpl never.
#[local] Arguments Z.pow : simpl never.
#[local] Arguments Z.div : simpl never.
#[local] Arguments Z.modulo : simpl never.
#[local] Arguments Z.compare : simpl never.

Lemma div_half_even_nearest (a b : Z) :
  0 < b ->
  2 * Z.abs (div_half_even a b * b - a) <= b
  /\ (2 * Z.abs (div_half_even a b * b - a) = b ->
      Z.even (div_half_even a b) = true).
Proof.
  intros Hb. unfold div_half_even.
  pose proof (Z.div_mod a b ltac:(lia)) as Hdm.
  pose proof (Z.mod_pos_bound a b Hb) as Hr.
  remember (a / b) as q eqn:Eq. clear Eq.
  remember (a mod b) as r eqn:Er. clear Er.
  destruct (Z.compare_spec (2 * r) b) as [E|L|G].
  - destruct (Z.even q) eqn:Ev.
    + split; [nia|]. intros _. exact Ev.
    + split; [nia|]. intros _.
      replace (q + 1) with (Z.succ q) by lia.
      rewrite Z.even_succ, <- Z.negb_even, Ev. reflexivity.
  - split; [nia|]. intros H. exfalso. nia.
  - split; [nia|]. intros H. exfalso. nia.
Qed.

Lemma hundredths_nearest (m : positive) (e : Z) :
  0 <= hundredths m e /\ nearest_hundredth m e (hundredths m e).
Proof.
  unfold hundredths, nearest_hundredth. destruct e as [|p|p].
  - change (Z.max 0 (- 0)) with 0. change (Z.max 0 0) with 0.
    change (2 ^ 0) with 1. split; [lia|]. split; [lia|]. intros H. exfalso. lia.
  - replace (Z.max 0 (- Zpos p)) with 0 by lia.
    replace (Z.max 0 (Zpos p)) with (Zpos p) by lia.
    change (2 ^ 0) with 1.
    pose proof (pow2_pos (Zpos p) ltac:(lia)) as Hp.
    split; [nia|]. split; [lia|]. intros H. exfalso. lia.
  - replace (Z.max 0 (- Zneg p)) with (Zpos p) by lia.
    replace (Z.max 0 (Zneg p)) with 0 by lia.
    change (2 ^ 0) with 1. rewrite Z.mul_1_r.
    pose proof (pow2_pos (Zpos p) ltac:(lia)) as Hp.
    pose proof (div_half_even_nearest (100 * Zpos m) (2 ^ Zpos p) Hp) as H.
    split; [|exact H].
    destruct H as [H _].
    remember (div_half_even (100 * Zpos m) (2 ^ Zpos p)) as q eqn:Eq. clear Eq.
    remember (2 ^ Zpos p) as b eqn:Eb. clear Eb. nia.
Qed.

(** The integer nearest to a hundred times a float, ties to even, is
    unique. *)
Lemma nearest_hundredth_unique (m : positive) (e q q' : Z) :
  nearest_hundredth m e q -> nearest_hundredth m e q' -> q = q'.
Proof.
  unfold nearest_hundredth.
  pose proof (pow2_pos (Z.max 0 (- e)) ltac:(lia)) as Hs.
  remember (2 ^ Z.max 0 (- e)) as b eqn:Eb. clear Eb.
  remember (100 * Zpos m * 2 ^ Z.max 0 e) as a eqn:Ea. clear Ea.
  intros [H1 E1] [H2 E2].
  assert (Hd : q' = q \/ q' = q + 1 \/ q = q' + 1) by nia.
  destruct Hd as [->|[->| ->]]; [reflexivity| |].
  - assert (T1 : 2 * Z.abs (q * b - a) = b) by nia.
    assert (T2 : 2 * Z.abs ((q + 1) * b - a) = b) by nia.
    specialize (E1 T1). specialize (E2 T2).
    replace (q + 1) with (Z.succ q) in E2 by lia.
    rewrite Z.even_succ, <- Z.negb_even, E1 in E2. discriminate.
  - assert (T1 : 2 * Z.abs ((q' + 1) * b - a) = b) by nia.
    assert (T2 : 2 * Z.abs (q' * b - a) = b) by nia.
    specialize (E1 T1). specialize (E2 T2).
    replace (q' + 1) with (Z.succ q') in E1 by lia.
    rewrite Z.even_succ, <- Z.negb_even, E2 in E1. discriminate.
Qed.

(** [round(x, 2)] is [x] rounded to two digits after the point. *)
Lemma round2_rounded (x : float) : rounded_to_hundredths x (round2 x).
Proof.
  destruct x as [s|s| |s m e]; try reflexivity.
  unfold rounded_to_hundredths, round2.
  exists (hundredths m e).
  destruct (hundredths_nearest m e) as [H0 Hn].
  split; [exact H0|]. split; [exact Hn|]. reflexivity.
Qed.

Lemma good_le_max_float (m : positive) (e : Z) :
  good (S754_finite false m e) = true -> ival m e <= xval max_float.
Proof.
  intros G. destruct (good_finite _ _ _ G) as (_ & Hc & Hmin & Hb).
  destruct (canonical_facts m e Hc) as (_ & Hd & _).
  unfold emax, prec, emin in *.
  assert (Hm : Zpos m < 2 ^ 53).
  { pose proof (Zdigits2_spec (Zpos m) (Pos2Z.is_pos m)) as [_ Hu].
    pose proof (Zdigits2_pos (Zpos m) (Pos2Z.is_pos m)) as Hp.
    apply Z.lt_le_trans with (1 := Hu). apply pow2_le.
    remember (Zdigits2 (Zpos m)) as k eqn:Ek. clear Ek Hu. lia. }
  unfold max_float, xval, ival, emin.
  change (971 - -1074) with 2045.
  destruct (Z.eq_dec e 971) as [->|Hne].
  - change (971 - -1074) with 2045.
    pose proof (pow2_pos 2045 ltac:(lia)) as Hp.
    change (2 ^ 53) with 9007199254740992 in Hm.
    apply Z.mul_le_mono_nonneg_r; lia.
  - pose proof (pow2_le (e - -1074) 2044 ltac:(lia)) as Hp.
    pose proof (pow2_pos (e - -1074) ltac:(lia)) as Hp0.
    change (2 ^ 2045) with (2 ^ (1 + 2044)).
    rewrite pow2_split by lia. change (2 ^ 1) with 2.
    change (2 ^ 53) with 9007199254740992 in Hm.
    remember (2 ^ (e - -1074)) as b eqn:Eb. clear Eb.
    remember (2 ^ 2044) as c eqn:Ec. clear Ec.
    apply Z.le_trans with (9007199254740992 * c).
    + apply Z.le_trans with (9007199254740992 * b).
      * apply Z.mul_le_mono_nonneg_r; lia.
      * apply Z.mul_le_mono_nonneg_l; lia.
    + lia.
Qed.

(** Rounding a finite non-negative float to two places does not
    overflow. *)
Lemma round2_is_finite (x : float) :
  good x = true -> is_finite x = true -> is_finite (round2 x) = true.
Proof.
  intros G F. destruct x as [s|s| |s m e]; try discriminate F;
    [reflexivity|].
  destruct (good_finite _ _ _ G) as (-> & _).
  assert (Gm : good max_float = true) by reflexivity.
  pose proof (good_le_max_float m e G) as Hle.
  destruct (round2_mono (S754_finite false m e) max_float G Gm Hle)
    as (G1 & _ & H).
  assert (Em : round2 max_float = max_float) by (vm_compute; reflexivity).
  rewrite Em in H.
  assert (Hlt : xval max_float < overflow_value) by (vm_compute; reflexivity).
  destruct (round2 (S754_finite false m e)) as [s'|s'| |s' m' e'];
    try reflexivity; try discriminate G1.
  change (xval (S754_infinity s')) with overflow_value in H.
  remember (xval max_float) as v eqn:Ev. clear Ev.
  remember overflow_value as o eqn:Eo. clear Eo. lia.
Qed.

Lemma round2_two_decimal (x : float) :
  is_finite (round2 x) = true -> two_decimal (round2 x).
Proof.
  intros F. split; [exact F|].
  destruct x as [s|s| |s m e]; try discriminate F.
  - exists s, 0. split; [lia|reflexivity].
  - unfold round2. exists s, (hundredths m e).
    split; [apply hundredths_nearest|reflexivity].
Qed.

End Hundredths.

(** The sum of the terms of a window of a list of binary64 amounts is a
    non-negative binary64 value. *)
Lemma window_sum_good (p : Transaction -> bool) (ts : list Transaction) :
  well_formed ts ->
  good (float_sum (map amount (filter p (spending_transactions ts)))) = true.
Proof.
  intros Hwf. pose proof (spending_transactions_good ts Hwf) as Hl.
  assert (Hz : good PyFloat.zero = true) by reflexivity.
  destruct (float_sum_filter_le p p (spending_transactions ts)
              (fun t H => H) Hl PyFloat.zero PyFloat.zero Hz Hz (Z.le_refl _))
    as (G & _).
  exact G.
Qed.

Lemma monthly_sum_good (ts : list Transaction) :
  well_formed ts -> good (float_sum (monthly_terms ts)) = true.
Proof.
  intros Hwf. unfold monthly_terms.
  rewrite <- (filter_all (spending_transactions ts)) at 1.
  now apply window_sum_good.
Qed.

(** [round] and the conversion of the response model on the result of the
    compensated [sum]. *)
Lemma rounded_compensated_sum (l : list PyFloat.float) :
  to_float (round (compensated_sum l))
  = PyFloat.round2 (to_float (compensated_sum l)).
Proof. destruct l; reflexivity. Qed.

(** C7, as stated, fails when a sum overflows: two amounts of [1e308] make
    every total [inf], which is no decimal with two digits after the point;
    this is so with either summation. *)
Lemma overflow_total_not_two_decimal :
  well_formed overflow_example
  /\ ~ (two_decimal (daily (spending example_today overflow_example))
        /\ two_decimal (weekly (spending example_today overflow_example))
        /\ two_decimal (monthly (spending example_today overflow_example)))
  /\ ~ two_decimal
         (monthly (spending_compensated example_today overflow_example)).
Proof.
  split; [repeat constructor|].
  split.
  - intros (_ & _ & [F _]). vm_compute in F. discriminate F.
  - intros [F _]. vm_compute in F. discriminate F.
Qed.

(** C7: each field of the response is [round(., 2)] applied once to the
    binary64 sum of its terms, and the terms are summed as they are.  So
    when the sum is finite, the field is the float nearest to [q / 100],
    where [q] is the integer nearest to a hundred times the sum, and it is
    finite; when the sum has overflowed, the field is [inf].  The first
    relation also holds with the compensated [sum]. *)
Theorem rounded_once_at_output (today : date) (ts : list Transaction)
  (Hwf : well_formed ts) :
  (rounded_to_hundredths (float_sum (daily_terms today ts))
     (daily (spending today ts))
   /\ rounded_to_hundredths (float_sum (weekly_terms today ts))
        (weekly (spending today ts))
   /\ rounded_to_hundredths (float_sum (monthly_terms ts))
        (monthly (spending today ts)))
  /\ ((is_finite (float_sum (daily_terms today ts)) = true ->
       two_decimal (daily (spending today ts)))
      /\ (is_finite (float_sum (weekly_terms today ts)) = true ->
          two_decimal (weekly (spending today ts)))
      /\ (is_finite (float_sum (monthly_terms ts)) = true ->
          two_decimal (monthly (spending today ts))))
  /\ (rounded_to_hundredths (to_float (compensated_sum (daily_terms today ts)))
        (daily (spending_compensated today ts))
      /\ rounded_to_hundredths
           (to_float (compensated_sum (weekly_terms today ts)))
           (weekly (spending_compensated today ts))
      /\ rounded_to_hundredths (to_float (compensated_sum (monthly_terms ts)))
           (monthly (spending_compensated today ts))).
Proof.
  destruct (spending_fields today ts) as (D & W & M).
  rewrite D, W, M.
  split; [|split].
  - repeat split; apply Hundredths.round2_rounded.
  - split; [|split]; intros F; apply Hundredths.round2_two_decimal;
      apply Hundredths.round2_is_finite; try exact F.
    + now apply window_sum_good.
    + now apply window_sum_good.
    + now apply monthly_sum_good.
  - unfold spending_compensated; cbn [daily weekly monthly].
    rewrite !rounded_compensated_sum.
    repeat split; apply Hundredths.round2_rounded.
Qed.

Lemma rounded_once_at_output_witness :
  well_formed example_transactions
  /\ two_decimal (monthly (spending example_today example_transactions)).
Proof.
  assert (H : well_formed example_transactions) by (repeat constructor).
  split; [exact H|].
  exact (proj2 (proj2 (proj1 (proj2
           (rounded_once_at_output example_today example_transactions H))))
           eq_refl).
Defined.

(** Rounding the terms before summing them would give another result: two
    amounts of 0.004 make 0.01, while each of them rounds to 0.0. *)
Example rounding_terms_first_differs :
  let ts := [ {| amount := PyFloat.of_decimal 4 3; date_of := example_today |};
              {| amount := PyFloat.of_decimal 4 3; date_of := example_today |} ] in
  monthly (spending example_today ts) = PyFloat.of_decimal 1 2
  /\ PyFloat.round2
       (fold_left PyFloat.add (map PyFloat.round2 (monthly_terms ts))
          PyFloat.zero) = PyFloat.zero.
Proof. split; vm_compute; reflexivity. Qed.

(** ** Further properties of the aggregation *)

Lemma good_nonnegative (x : PyFloat.float) :
  good x = true ->
  PyFloat.leb PyFloat.zero x = true
  /\ valid_binary PyFloat.prec PyFloat.emax x = true.
Proof.
  destruct x as [s|s| |s m e]; simpl; try discriminate.
  - intros _. now split.
  - destruct s; try discriminate. intros _. now split.
  - destruct s; try discriminate. simpl. intros H. now split.
Qed.

(** Sums of well-formed positive terms: the accumulator only grows, and a
    larger start gives a larger sum. *)
Lemma fold_add_mono (l : list PyFloat.float) :
  Forall (fun x => good x = true /\ 0 < xval x) l ->
  forall a1 a2 : PyFloat.float,
    good a1 = true -> good a2 = true -> xval a1 <= xval a2 ->
    good (fold_left PyFloat.add l a1) = true
    /\ good (fold_left PyFloat.add l a2) = true
    /\ xval (fold_left PyFloat.add l a1) <= xval (fold_left PyFloat.add l a2).
Proof.
  induction 1 as [|x l [Gx Hx] Hl IH]; intros a1 a2 G1 G2 H; simpl.
  - auto.
  - destruct (FloatFacts.add_spec a1 x G1 Gx Hx) as [G1' _].
    destruct (FloatFacts.add_spec a2 x G2 Gx Hx) as [G2' _].
    apply IH; try assumption. now apply FloatFacts.add_mono.
Qed.

Lemma fold_add_increasing (l : list PyFloat.float) :
  Forall (fun x => good x = true /\ 0 < xval x) l ->
  forall a : PyFloat.float,
    good a = true ->
    good (fold_left PyFloat.add l a) = true
    /\ xval a <= xval (fold_left PyFloat.add l a).
Proof.
  induction 1 as [|x l [Gx Hx] Hl IH]; intros a G; simpl.
  - split; [exact G|lia].
  - destruct (FloatFacts.add_spec a x G Gx Hx) as [G' _].
    destruct (IH _ G') as [G'' H]. split; [exact G''|].
    apply Z.le_trans with (2 := H). now apply FloatFacts.add_increasing.
Qed.

(** Inserting terms in a sum does not lower it. *)
Lemma float_sum_insert (l1 l l2 : list PyFloat.float) :
  Forall (fun x => good x = true /\ 0 < xval x) l1 ->
  Forall (fun x => good x = true /\ 0 < xval x) l ->
  Forall (fun x => good x = true /\ 0 < xval x) l2 ->
  good (float_sum (l1 ++ l2)) = true
  /\ good (float_sum (l1 ++ l ++ l2)) = true
  /\ xval (float_sum (l1 ++ l2)) <= xval (float_sum (l1 ++ l ++ l2)).
Proof.
  intros H1 H H2. unfold float_sum. rewrite !fold_left_app.
  destruct (fold_add_increasing l1 H1 PyFloat.zero eq_refl) as [G1 _].
  destruct (fold_add_increasing l H _ G1) as [G Hle].
  exact (fold_add_mono l2 H2 _ _ G1 G Hle).
Qed.

Lemma terms_good (p : Transaction -> bool) (ts : list Transaction) :
  well_formed ts ->
  Forall (fun x => good x = true /\ 0 < xval x)
    (map amount (filter p (spending_transactions ts))).
Proof.
  intros Hwf. pose proof (spending_transactions_good ts Hwf) as Hl.
  rewrite Forall_forall in *. intros x Hx.
  apply in_map_iff in Hx as (t & <- & Ht).
  apply filter_In in Ht as [Ht _]. now apply Hl.
Qed.

Lemma well_formed_app (l1 l2 : list Transaction) :
  well_formed (l1 ++ l2) <-> well_formed l1 /\ well_formed l2.
Proof. apply Forall_app. Qed.

Lemma rounded_le (x y : PyFloat.float) :
  good x = true -> good y = true -> xval x <= xval y ->
  geb (PyFloat.round2 y) (PyFloat.round2 x) = true.
Proof.
  intros Gx Gy H.
  destruct (FloatFacts.round2_mono _ _ Gx Gy H) as (Gx' & Gy' & H').
  now apply FloatFacts.SFleb_of_xval.
Qed.

(** X1: the totals of a list of binary64 amounts are never negative and never
    NaN: each field is a binary64 value that compares [>= 0]. *)
Theorem totals_nonnegative (today : date) (ts : list Transaction)
  (Hwf : well_formed ts) :
  (geb (daily (spending today ts)) PyFloat.zero = true
   /\ valid_binary PyFloat.prec PyFloat.emax (daily (spending today ts)) = true)
  /\ (geb (weekly (spending today ts)) PyFloat.zero = true
      /\ valid_binary PyFloat.prec PyFloat.emax (weekly (spending today ts))
         = true)
  /\ (geb (monthly (spending today ts)) PyFloat.zero = true
      /\ valid_binary PyFloat.prec PyFloat.emax (monthly (spending today ts))
         = true).
Proof.
  destruct (spending_fields today ts) as (-> & -> & ->).
  assert (R : forall l, Forall (fun x => good x = true /\ 0 < xval x) l ->
              good (PyFloat.round2 (float_sum l)) = true).
  { intros l Hl.
    destruct (fold_add_increasing l Hl PyFloat.zero eq_refl) as [G _].
    now destruct (FloatFacts.round2_mono _ _ G G (Z.le_refl _)) as (G' & _). }
  assert (M : monthly_terms ts
              = map amount (filter (fun _ => true) (spending_transactions ts)))
    by (unfold monthly_terms; now rewrite filter_all).
  rewrite M. unfold daily_terms, weekly_terms.
  repeat split; apply good_nonnegative, R, terms_good, Hwf.
Qed.

Lemma totals_nonnegative_witness :
  well_formed example_transactions
  /\ geb (daily (spending example_today example_transactions)) PyFloat.zero
     = true.
Proof.
  assert (H : well_formed example_transactions) by (repeat constructor).
  split; [exact H|].
  exact (proj1 (proj1 (totals_nonnegative example_today example_transactions H))).
Defined.

(** X2: when [sum] adds the floats one after the other (CPython up to
    3.11), adding a transaction anywhere in a list of binary64 amounts lowers
    none of the three totals. *)
Theorem adding_transaction_never_lowers (today : date)
  (before after : list Transaction) (t : Transaction)
  (Hwf : well_formed (before ++ t :: after)) :
  geb (daily (spending today (before ++ t :: after)))
    (daily (spending today (before ++ after))) = true
  /\ geb (weekly (spending today (before ++ t :: after)))
       (weekly (spending today (before ++ after))) = true
  /\ geb (monthly (spending today (before ++ t :: after)))
       (monthly (spending today (before ++ after))) = true.
Proof.
  destruct (spending_fields today (before ++ t :: after)) as (-> & -> & ->).
  destruct (spending_fields today (before ++ after)) as (-> & -> & ->).
  apply well_formed_app in Hwf as [Hb Hta].
  change (t :: after) with ([t] ++ after) in Hta.
  apply well_formed_app in Hta as [Ht Ha].
  pose proof (terms_good (fun t => yesterday today <=? date_of t)) as GD.
  pose proof (terms_good (fun t => week_ago today <=? date_of t)) as GW.
  assert (GM : forall ts, well_formed ts ->
            Forall (fun x => good x = true /\ 0 < xval x) (monthly_terms ts)).
  { intros ts H. unfold monthly_terms.
    rewrite <- (filter_all (spending_transactions ts)).
    now apply terms_good. }
  rewrite daily_terms_insert, weekly_terms_insert, monthly_terms_insert.
  rewrite daily_terms_app, weekly_terms_app, monthly_terms_app.
  repeat split.
  - destruct (float_sum_insert _ (daily_terms today [t]) _
                (GD _ Hb) (GD _ Ht) (GD _ Ha)) as (G1 & G2 & H).
    now apply rounded_le.
  - destruct (float_sum_insert _ (weekly_terms today [t]) _
                (GW _ Hb) (GW _ Ht) (GW _ Ha)) as (G1 & G2 & H).
    now apply rounded_le.
  - destruct (float_sum_insert _ (monthly_terms [t]) _
                (GM _ Hb) (GM _ Ht) (GM _ Ha)) as (G1 & G2 & H).
    now apply rounded_le.
Qed.

Lemma adding_transaction_never_lowers_witness :
  well_formed ([] ++ boundary_transaction example_today :: example_transactions)
  /\ geb (monthly (spending example_today
                     ([] ++ boundary_transaction example_today
                         :: example_transactions)))
       (monthly (spending example_today ([] ++ example_transactions))) = true.
Proof.
  assert (H : well_formed
                ([] ++ boundary_transaction example_today :: example_transactions))
    by (repeat constructor).
  split; [exact H|].
  exact (proj2 (proj2 (adding_transaction_never_lowers example_today []
                         example_transactions
                         (boundary_transaction example_today) H))).
Defined.

(** X3: when [sum] adds the floats one after the other (CPython up to
    3.11), with a later reference date the daily and the weekly total of a
    list of binary64 amounts do not grow, and the monthly total is the
    same. *)
Theorem later_reference_date (today later : date) (ts : list Transaction)
  (Hwf : well_formed ts) (Hlater : today <= later) :
  geb (daily (spending today ts)) (daily (spending later ts)) = true
  /\ geb (weekly (spending today ts)) (weekly (spending later ts)) = true
  /\ monthly (spending later ts) = monthly (spending today ts).
Proof.
  destruct (spending_fields today ts) as (-> & -> & ->).
  destruct (spending_fields later ts) as (-> & -> & ->).
  pose proof (spending_transactions_good ts Hwf) as Hl.
  assert (Hz : good PyFloat.zero = true) by reflexivity.
  unfold daily_terms, weekly_terms, float_sum.
  repeat split.
  - assert (Hsub : forall t, (yesterday later <=? date_of t) = true ->
                             (yesterday today <=? date_of t) = true).
    { intros t Ht. apply Z.leb_le in Ht. apply Z.leb_le.
      unfold yesterday, minus_days in *. lia. }
    destruct (float_sum_filter_le _ _ _ Hsub Hl PyFloat.zero PyFloat.zero
                Hz Hz (Z.le_refl _)) as (G1 & G2 & H).
    now apply rounded_le.
  - assert (Hsub : forall t, (week_ago later <=? date_of t) = true ->
                             (week_ago today <=? date_of t) = true).
    { intros t Ht. apply Z.leb_le in Ht. apply Z.leb_le.
      unfold week_ago, minus_days in *. lia. }
    destruct (float_sum_filter_le _ _ _ Hsub Hl PyFloat.zero PyFloat.zero
                Hz Hz (Z.le_refl _)) as (G1 & G2 & H).
    now apply rounded_le.
Qed.

Lemma later_reference_date_witness :
  well_formed example_transactions
  /\ example_today <= ymd 2024 6 20
  /\ geb (weekly (spending example_today example_transactions))
       (weekly (spending (ymd 2024 6 20) example_transactions)) = true.
Proof.
  assert (H : well_formed example_transactions) by (repeat constructor).
  assert (L : example_today <= ymd 2024 6 20) by (vm_compute; discriminate).
  split; [exact H|]. split; [exact L|].
  exact (proj1 (proj2 (later_reference_date example_today (ymd 2024 6 20)
                         example_transactions H L))).
Defined.

(** With the compensated [sum] of CPython 3.12 and later neither of the two
    properties above holds: on the amounts [1.0], [2^53], [1 - 2^-53] and
    [1 - 2^-52] the total is [2^53 + 4], and with [2^-52] added after the
    first of them it is [2^53 + 2]; and the weekly total of the five amounts
    is larger on 2024-06-15, when the added one has left the window, than on
    2024-06-08. *)
Example compensated_sum_not_monotone :
  monthly (spending_compensated example_today
             (firstn 1 compensated_example ++ skipn 2 compensated_example))
  = PyFloat.of_Z (2 ^ 53 + 4)
  /\ monthly (spending_compensated example_today compensated_example)
     = PyFloat.of_Z (2 ^ 53 + 2)
  /\ weekly (spending_compensated (ymd 2024 6 8) compensated_example)
     = PyFloat.of_Z (2 ^ 53 + 2)
  /\ weekly (spending_compensated (ymd 2024 6 15) compensated_example)
     = PyFloat.of_Z (2 ^ 53 + 4).
Proof. repeat split; vm_compute; reflexivity. Qed.

Lemma filter_map_commute {A B : Type} (f : A -> B) (p : B -> bool)
  (l : list A) :
  filter p (map f l) = map f (filter (fun a => p (f a)) l).
Proof.
  induction l as [|a l IH]; simpl; [reflexivity|].
  destruct (p (f a)); simpl; now rewrite IH.
Qed.

Lemma filter_filter_and {A : Type} (p q : A -> bool) (l : list A) :
  filter p (filter q l) = filter (fun a => q a && p a) l.
Proof.
  induction l as [|a l IH]; simpl; [reflexivity|].
  destruct (q a); simpl; [destruct (p a)|]; now rewrite IH.
Qed.

(** X4: only the distance between the dates and the reference date matters:
    moving the reference date and every transaction by the same number of
    days leaves the response unchanged. *)
Theorem shifting_all_dates (k : Z) (today : date) (ts : list Transaction) :
  spending (today + k) (map (shift_days k) ts) = spending today ts.
Proof.
  assert (S : spending_transactions (map (shift_days k) ts)
              = map (shift_days k) (spending_transactions ts)).
  { unfold spending_transactions. now rewrite filter_map_commute. }
  assert (A : forall l, map amount (map (shift_days k) l) = map amount l).
  { intros l. rewrite map_map. now apply map_ext. }
  assert (D : daily_terms (today + k) (map (shift_days k) ts)
              = daily_terms today ts).
  { unfold daily_terms. rewrite S, filter_map_commute, A.
    f_equal. apply filter_ext. intros t.
    unfold yesterday, minus_days, shift_days; simpl.
    destruct (Z.leb_spec (today + k - 1) (date_of t + k));
      destruct (Z.leb_spec (today - 1) (date_of t)); try reflexivity; lia. }
  assert (W : weekly_terms (today + k) (map (shift_days k) ts)
              = weekly_terms today ts).
  { unfold weekly_terms. rewrite S, filter_map_commute, A.
    f_equal. apply filter_ext. intros t.
    unfold week_ago, minus_days, shift_days; simpl.
    destruct (Z.leb_spec (today + k - 7) (date_of t + k));
      destruct (Z.leb_spec (today - 7) (date_of t)); try reflexivity; lia. }
  assert (M : monthly_terms (map (shift_days k) ts) = monthly_terms ts).
  { unfold monthly_terms. now rewrite S, A. }
  unfold spending, daily_sum, weekly_sum, monthly_sum.
  now rewrite D, W, M.
Qed.

(** X5: a list without any positive amount, such as a list of refunds only,
    gives the response whose three fields are [0.0]. *)
Theorem no_positive_amount (today : date) (ts : list Transaction)
  (Hnone : forall t, In t ts -> gt0 (amount t) = false) :
  spending today ts = zero_response.
Proof.
  assert (E : spending_transactions ts = []).
  { unfold spending_transactions.
    induction ts as [|t ts IH]; simpl; [reflexivity|].
    rewrite (Hnone t (or_introl eq_refl)). apply IH.
    intros t' Ht'. apply Hnone. now right. }
  unfold spending, daily_sum, weekly_sum, monthly_sum,
    daily_terms, weekly_terms, monthly_terms.
  now rewrite E.
Qed.

Lemma no_positive_amount_witness :
  spending example_today
    [ {| amount := PyFloat.of_decimal (-500) 2; date_of := example_today |};
      {| amount := PyFloat.zero; date_of := example_today |} ]
  = zero_response.
Proof.
  apply no_positive_amount.
  intros t [<-|[<-|[]]]; reflexivity.
Defined.

(** X6: the daily and the weekly total are the monthly total of the
    transactions dated within the window: the date filter and the filter
    on the sign of the amount can be applied in either order. *)
Theorem window_totals_as_monthly (today : date) (ts : list Transaction) :
  daily (spending today ts)
  = monthly (spending today
               (filter (fun t => yesterday today <=? date_of t) ts))
  /\ weekly (spending today ts)
     = monthly (spending today
                  (filter (fun t => week_ago today <=? date_of t) ts)).
Proof.
  destruct (spending_fields today ts) as (-> & -> & _).
  destruct (spending_fields today
              (filter (fun t => yesterday today <=? date_of t) ts))
    as (_ & _ & ->).
  destruct (spending_fields today
              (filter (fun t => week_ago today <=? date_of t) ts))
    as (_ & _ & ->).
  unfold daily_terms, weekly_terms, monthly_terms, spending_transactions.
  rewrite !filter_filter_and.
  split; do 3 f_equal; apply filter_ext; intros t; apply andb_comm.
Qed.

(** ** Further properties of the handlers *)

Lemma get_spending_returns (exn : Type) (str : exn -> string)
  (client : PlaidApi exn) (now_1 now_2 : date) (token : string)
  (resp : TransactionsGetResponse) :
  transactions_get client
    {| access_token_field := token;
       start_date := minus_days now_1 30;
       end_date := now_1 |} = Returned resp ->
  get_spending str client now_1 now_2 token
  = Returned (SpendingBody (spending now_2 (transactions_field resp))).
Proof.
  intros H. unfold get_spending, try_except, bind. now rewrite H.
Qed.

Lemma window_terms (first last : date) (ts : list Transaction) :
  Forall (fun t => date_of t <= last) ts ->
  map amount
    (filter (fun t => first <=? date_of t) (spending_transactions ts))
  = map amount
      (filter (fun t => gt0 (amount t) && in_window first last t) ts).
Proof.
  intros H. unfold spending_transactions. rewrite filter_filter_and.
  f_equal. apply filter_ext_in. intros t Ht.
  rewrite Forall_forall in H. specialize (H t Ht).
  unfold in_window. apply Z.leb_le in H. rewrite H.
  now rewrite andb_true_r.
Qed.

(** X10: when the provider honours the requested range, the totals of the
    spending endpoint are sums over closed ranges of dates: the positive
    amounts dated from the day before the second reading of the clock up
    to the first reading for the daily total, from seven days before the
    second reading for the weekly total, and of the whole range fetched,
    thirty days before the first reading up to it, for the monthly
    total. *)
Theorem get_spending_windows (exn : Type) (str : exn -> string)
  (client : PlaidApi exn) (now_1 now_2 : date) (token : string)
  (resp : TransactionsGetResponse)
  (Hanswer : transactions_get client
               {| access_token_field := token;
                  start_date := minus_days now_1 30;
                  end_date := now_1 |} = Returned resp)
  (Hrange : Forall (fun t => minus_days now_1 30 <= date_of t <= now_1)
              (transactions_field resp)) :
  get_spending str client now_1 now_2 token
  = Returned
      (SpendingBody
         {| daily :=
              window_total (minus_days now_2 1) now_1 (transactions_field resp);
            weekly :=
              window_total (minus_days now_2 7) now_1 (transactions_field resp);
            monthly :=
              window_total (minus_days now_1 30) now_1
                (transactions_field resp) |}).
Proof.
  rewrite (get_spending_returns exn str client now_1 now_2 token resp Hanswer).
  set (ts := transactions_field resp) in *.
  assert (Hlast : Forall (fun t => date_of t <= now_1) ts).
  { rewrite Forall_forall in *. intros t Ht. now apply Hrange. }
  destruct (spending_fields now_2 ts) as (D & W & M).
  destruct (spending now_2 ts) as [d w m]; simpl in D, W, M. subst d w m.
  unfold window_total, daily_terms, weekly_terms, monthly_terms,
    yesterday, week_ago.
  rewrite !(window_terms _ now_1 ts Hlast).
  assert (M : map amount (spending_transactions ts)
              = map amount
                  (filter (fun t => gt0 (amount t)
                                    && in_window (minus_days now_1 30) now_1 t)
                     ts)).
  { unfold spending_transactions. f_equal.
    apply filter_ext_in. intros t Ht.
    rewrite Forall_forall in Hrange. specialize (Hrange t Ht).
    unfold in_window.
    destruct (Z.leb_spec (minus_days now_1 30) (date_of t));
      destruct (Z.leb_spec (date_of t) now_1); try lia.
    now rewrite andb_true_r. }
  now rewrite M.
Qed.

Lemma get_spending_windows_witness :
  get_spending (fun e : string => e) (answering_client example_transactions)
    example_today example_today "token"
  = Returned
      (SpendingBody
         {| daily :=
              window_total (minus_days example_today 1) example_today
                example_transactions;
            weekly :=
              window_total (minus_days example_today 7) example_today
                example_transactions;
            monthly :=
              window_total (minus_days example_today 30) example_today
                example_transactions |}).
Proof.
  apply (get_spending_windows string (fun e => e)
           (answering_client example_transactions) example_today example_today
           "token" {| transactions_field := example_transactions |} eq_refl).
  repeat constructor; vm_compute; discriminate.
Defined.

(** ** Exact totals of decimal amounts *)

Module ExactSums.

Import PyFloat FloatFacts.

#[local] Arguments Z.mul : simpl never.
#[local] Arguments Z.add : simpl never.
#[local] Arguments Z.sub : simpl never.
#[local] Arguments Z.pow : simpl never.
#[local] Arguments Z.div : simpl never.
#[local] Arguments Z.modulo : simpl never.
#[local] Arguments Z.compare : simpl never.
#[local] Arguments Z.leb : simpl never.
#[local] Arguments Z.eqb : simpl never.

Lemma div_half_even_error (a b : Z) :
  0 < b -> 2 * Z.abs (b * div_half_even a b - a) <= b.
Proof.
  intros Hb. unfold div_half_even.
  pose proof (Z.div_mod a b ltac:(lia)) as Hdm.
  pose proof (Z.mod_pos_bound a b Hb) as Hr.
  forget (a / b) as q. forget (a mod b) as r.
  destruct (Z.compare_spec (2 * r) b); [destruct (Z.even q)| |]; nia.
Qed.

Lemma div_half_even_unique (a b n : Z) :
  0 < b -> 2 * Z.abs (a - n * b) < b -> div_half_even a b = n.
Proof.
  intros Hb H. unfold div_half_even.
  pose proof (Z.div_mod a b ltac:(lia)) as Hdm.
  pose proof (Z.mod_pos_bound a b Hb) as Hr.
  forget (a / b) as q. forget (a mod b) as r.
  assert (q = n \/ q = n - 1) as [->| ->] by nia.
  - destruct (Z.compare_spec (2 * r) b); [destruct (Z.even n)| |]; nia.
  - destruct (Z.compare_spec (2 * r) b); [destruct (Z.even (n - 1))| |]; nia.
Qed.

Lemma unit_value_half_ulp : unit_value = 16777216 * half_ulp.
Proof.
  unfold unit_value, half_ulp. change 16777216 with (2 ^ 24).
  rewrite <- pow2_split by lia. reflexivity.
Qed.

Lemma half_ulp_pos : 0 < half_ulp.
Proof. apply pow2_pos. lia. Qed.

Lemma overflow_value_large : 2 ^ 31 * unit_value <= overflow_value.
Proof.
  unfold unit_value, overflow_value, emax, emin.
  rewrite <- pow2_split by lia. apply pow2_le. lia.
Qed.

(** Rounding a value below [2^30] moves it by at most half an ulp. *)
Lemma rounded_near (v : Z) :
  1 <= v < 2 ^ 30 * unit_value ->
  Z.abs (rounded v 1 emin - v) <= half_ulp.
Proof.
  intros [Hlo Hhi]. unfold rounded.
  assert (Hd : Zdigits2 v <= 1104).
  { destruct (Z.le_gt_cases (Zdigits2 v) 1104) as [L|L]; [exact L|].
    pose proof (Zdigits2_spec v ltac:(lia)) as [Hs _].
    pose proof (pow2_le 1104 (Zdigits2 v - 1) ltac:(lia)) as Hp.
    unfold unit_value in Hhi. rewrite <- pow2_split in Hhi by lia.
    change (30 + 1074) with 1104 in Hhi. lia. }
  pose proof (Zdigits2_pos v ltac:(lia)) as Hd1.
  pose proof (fexp_eq (mag v 1 emin)) as Hf.
  unfold mag in *. rewrite Z.div_1_r in *.
  forget (Zdigits2 v) as k.
  forget (fexp prec emax (k + emin)) as e'.
  unfold emin in *.
  assert (He : -1074 <= e' <= -23) by lia.
  rewrite Z.mul_1_l.
  pose proof (pow2_pos (e' - -1074) ltac:(lia)) as Hb.
  pose proof (pow2_le (e' - -1074) 1051 ltac:(lia)) as Hb2.
  change (2 ^ 1051) with (2 ^ (1 + 1050)) in Hb2.
  rewrite pow2_split in Hb2 by lia. change (2 ^ 1) with 2 in Hb2.
  fold half_ulp in Hb2.
  pose proof (div_half_even_error v (2 ^ (e' - -1074)) Hb) as He'.
  forget (2 ^ (e' - -1074)) as b.
  forget (div_half_even v b) as m.
  replace (m * b) with (b * m) by ring. lia.
Qed.

Lemma cents_float_near (c : Z) :
  0 < c <= 100000000000 -> near_cents (cents_float c) c.
Proof.
  intros [Hc Hmax]. unfold near_cents, cents_float, of_decimal.
  destruct c as [|q|q]; try lia.
  change (10 ^ 2) with 100.
  destruct (nearest_spec q) as [G V].
  destruct (hundred_pre (Zpos q) ltac:(lia)) as [P1 P2].
  assert (Hmin : emin <= -60) by (unfold emin; lia).
  pose proof (rounded_bounds _ 100 (-60) (conj eq_refl P1) Hmin P2) as [Blo _].
  unfold rounded in *.
  pose proof (fexp_eq (mag (Zpos q * 2 ^ 60) 100 (-60))) as Hf.
  assert (Hmag : mag (Zpos q * 2 ^ 60) 100 (-60) <= 30).
  { unfold mag.
    assert (Hq : Zpos q * 2 ^ 60 / 100 < 2 ^ 90).
    { apply Z.div_lt_upper_bound; [lia|].
      change (2 ^ 90) with (2 ^ 30 * 2 ^ 60).
      pose proof (pow2_pos 60 ltac:(lia)).
      assert (Zpos q < 100 * 2 ^ 30) by (change (2 ^ 30) with 1073741824; lia).
      nia. }
    assert (H0 : 0 <= Zpos q * 2 ^ 60 / 100)
      by (apply Z.div_pos; [pose proof (pow2_pos 60 ltac:(lia)); nia|lia]).
    assert (H1 : Zpos q * 2 ^ 60 / 100 <= 2 ^ 90 - 1) by lia.
    pose proof (Zdigits2_mono _ (2 ^ 90 - 1) (conj H0 H1)) as Hm.
    rewrite (Zdigits2_unique (2 ^ 90 - 1) 90) in Hm.
    - lia.
    - split; [|lia]. change (2 ^ (90 - 1)) with (2 ^ 89).
      change (2 ^ 90) with (2 * 2 ^ 89).
      pose proof (pow2_pos 89 ltac:(lia)). lia.
    - lia. }
  forget (mag (Zpos q * 2 ^ 60) 100 (-60)) as g.
  forget (fexp prec emax g) as e'.
  unfold emin in *.
  assert (He : -60 <= e' <= -23) by lia.
  pose proof (pow2_pos (e' - -60) ltac:(lia)) as Hb.
  pose proof (div_half_even_error (Zpos q * 2 ^ 60) (100 * 2 ^ (e' - -60))
                ltac:(lia)) as Herr.
  forget (div_half_even (Zpos q * 2 ^ 60) (100 * 2 ^ (e' - -60))) as m.
  (* scale the error bound to units of 2^emin *)
  assert (E1 : 2 ^ (e' - -1074) = 2 ^ (e' - -60) * 2 ^ 1014).
  { rewrite <- pow2_split by lia. f_equal. lia. }
  assert (E2 : unit_value = 2 ^ 60 * 2 ^ 1014).
  { unfold unit_value. rewrite <- pow2_split by lia. reflexivity. }
  assert (E3 : 2 ^ (e' - -60) * 2 ^ 1014 <= 2 * half_ulp).
  { rewrite <- pow2_split by lia. unfold half_ulp.
    change (2 * 2 ^ 1050) with (2 ^ 1 * 2 ^ 1050).
    rewrite <- pow2_split by lia. apply pow2_le. lia. }
  pose proof (pow2_pos 1014 ltac:(lia)) as Hs.
  pose proof (pow2_pos 60 ltac:(lia)) as H60.
  assert (Hpow : 0 < 2 ^ (g - 1 - -1074)).
  { pose proof (Z.pow_nonneg 2 (g - 1 - -1074) ltac:(lia)).
    destruct (Z.eq_dec (2 ^ (g - 1 - -1074)) 0) as [E|E]; [|lia].
    apply Z.pow_eq_0_iff in E. lia. }
  pose proof overflow_value_large as Hov.
  pose proof unit_value_half_ulp as Hu.
  pose proof half_ulp_pos as Hh.
  rewrite E1 in *.
  forget (2 ^ (e' - -60)) as b. forget (2 ^ 1014) as s.
  forget (2 ^ 60) as t.
  assert (Herr' : Z.abs (100 * (m * (b * s)) - Zpos q * unit_value)
                  <= 100 * half_ulp).
  { rewrite E2.
    replace (100 * (m * (b * s)) - Zpos q * (t * s))
      with ((100 * b * m - Zpos q * t) * s) by ring.
    rewrite Z.abs_mul, (Z.abs_eq s) by lia.
    pose proof (Z.abs_nonneg (100 * b * m - Zpos q * t)) as Ha.
    forget (Z.abs (100 * b * m - Zpos q * t)) as d.
    assert (2 * (d * s) <= 100 * (b * s)) by nia. lia. }
  assert (Hsmall : m * (b * s) < overflow_value).
  { change (2 ^ 31) with 2147483648 in Hov.
    assert (Zpos q * unit_value <= 100000000000 * unit_value) by nia.
    lia. }
  split; [lia|]. split; [exact G|]. rewrite V.
  rewrite Z.min_r by lia.
  split; [lia|exact Herr'].
Qed.

Lemma good_positive_gt0 (x : PyFloat.float) :
  good x = true -> 0 < xval x -> gt0 x = true.
Proof.
  destruct x as [s|s| |s m e]; simpl; try discriminate; try lia.
  - destruct s; [discriminate|reflexivity].
  - destruct s; [discriminate|reflexivity].
Qed.

Lemma good_finite_value (x : PyFloat.float) :
  good x = true -> 0 < xval x < overflow_value ->
  exists m e, x = S754_finite false m e /\ emin <= e.
Proof.
  destruct x as [s|s| |s m e]; simpl; try discriminate; try lia.
  intros G _. destruct (good_finite _ _ _ G) as (-> & _ & Hmin & _).
  now exists m, e.
Qed.

Lemma step_bound (U h A X n c j r : Z) :
  U = 16777216 * h -> 0 < h -> 0 <= A -> 0 < X -> 0 <= n -> 0 < c ->
  0 <= j -> j + 1 <= 10000 -> n + c <= 100000000000 ->
  Z.abs (100 * A - n * U) <= 200 * j * h ->
  Z.abs (100 * X - c * U) <= 100 * h ->
  1 <= A + X < 1073741824 * U
  /\ (Z.abs (r - (A + X)) <= h ->
      Z.abs (100 * r - (n + c) * U) <= 200 * (j + 1) * h
      /\ r < 2147483648 * U).
Proof.
  intros -> Hh HA HX Hn Hc Hj Hj1 Hnc EA EX.
  assert (Hnh : 0 <= n * h) by (apply Z.mul_nonneg_nonneg; lia).
  assert (Hch : 0 <= c * h) by (apply Z.mul_nonneg_nonneg; lia).
  assert (Hjh : 0 <= j * h) by (apply Z.mul_nonneg_nonneg; lia).
  assert (Hnch : (n + c) * h <= 100000000000 * h)
    by (apply Z.mul_le_mono_nonneg_r; lia).
  assert (Hjh' : j * h <= 9999 * h) by (apply Z.mul_le_mono_nonneg_r; lia).
  replace (n * (16777216 * h)) with (16777216 * (n * h)) in * by ring.
  replace (c * (16777216 * h)) with (16777216 * (c * h)) in * by ring.
  replace (200 * j * h) with (200 * (j * h)) in * by ring.
  replace ((n + c) * h) with (n * h + c * h) in * by ring.
  replace ((n + c) * (16777216 * h))
    with (16777216 * (n * h) + 16777216 * (c * h)) by ring.
  replace (200 * (j + 1) * h) with (200 * (j * h) + 200 * h) by ring.
  generalize dependent (n * h). generalize dependent (c * h).
  generalize dependent (j * h). intros. lia.
Qed.

Lemma total_cents_nonneg (l : list PyFloat.float) (cs : list Z) :
  Forall2 near_cents l cs -> 0 <= total_cents cs.
Proof.
  induction 1 as [|x c l cs (H & _) Hl IH]; [simpl; lia|].
  change (total_cents (c :: cs)) with (c + total_cents cs). lia.
Qed.

(** The sum of decimal amounts, in hundredths. *)
Lemma fold_add_near (l : list PyFloat.float) (cs : list Z) :
  Forall2 near_cents l cs ->
  forall (a : PyFloat.float) (n j : Z),
    good a = true -> 0 <= n -> 0 <= j ->
    Z.abs (100 * xval a - n * unit_value) <= 200 * j * half_ulp ->
    j + Z.of_nat (List.length cs) <= 10000 ->
    n + total_cents cs <= 100000000000 ->
    good (fold_left add l a) = true
    /\ Z.abs (100 * xval (fold_left add l a)
              - (n + total_cents cs) * unit_value)
       <= 200 * (j + Z.of_nat (List.length cs)) * half_ulp.
Proof.
  induction 1 as [|x c l cs (Hc & Gx & Hx & Ex) Hl IH];
    intros a n j Ga Hn Hj Ea Hk Ht.
  - simpl. rewrite !Z.add_0_r. split; [exact Ga|exact Ea].
  - cbn [fold_left List.length].
    change (total_cents (c :: cs)) with (c + total_cents cs) in *.
    cbn [List.length] in Hk. rewrite Nat2Z.inj_succ in *.
    pose proof (total_cents_nonneg l cs Hl) as Hcs.
    destruct (add_spec a x Ga Gx Hx) as [G V].
    pose proof (good_xval_nonneg a Ga) as Ha0.
    pose proof overflow_value_large as Hov.
    change (2 ^ 31) with 2147483648 in Hov.
    destruct (step_bound unit_value half_ulp (xval a) (xval x) n c j
                (rounded (xval a + xval x) 1 emin)
                unit_value_half_ulp half_ulp_pos Ha0 Hx Hn Hc Hj
                ltac:(lia) ltac:(lia) Ea Ex) as [Hv Hstep].
    change 1073741824 with (2 ^ 30) in Hv.
    destruct (Hstep (rounded_near _ Hv)) as [Hnear Hsmall].
    unfold rounded_sum in V. rewrite Z.min_r in V by lia.
    replace (n + (c + total_cents cs)) with ((n + c) + total_cents cs) by ring.
    replace (j + Z.succ (Z.of_nat (List.length cs)))
      with ((j + 1) + Z.of_nat (List.length cs)) by lia.
    apply IH; try lia; try assumption.
Qed.

Lemma hundredths_of_near (m : positive) (e : Z) (n k : Z) :
  emin <= e -> 0 <= k <= 10000 ->
  Z.abs (100 * ival m e - n * unit_value) <= 200 * k * half_ulp ->
  hundredths m e = n.
Proof.
  intros He Hk H. rewrite hundredths_ival by assumption.
  fold unit_value. apply div_half_even_unique.
  - unfold unit_value. apply pow2_pos. lia.
  - pose proof unit_value_half_ulp as Hu. pose proof half_ulp_pos as Hh.
    assert (k * half_ulp <= 10000 * half_ulp)
      by (apply Z.mul_le_mono_nonneg_r; lia).
    replace (200 * k * half_ulp) with (200 * (k * half_ulp)) in H by ring.
    forget (k * half_ulp) as kh.
    forget (Z.abs (100 * ival m e - n * unit_value)) as d. lia.
Qed.

(** The rounded sum of at most ten thousand decimal amounts whose total
    is at most one billion is the float nearest to the decimal total. *)
Lemma round2_sum_near (l : list PyFloat.float) (cs : list Z) :
  Forall2 near_cents l cs ->
  Z.of_nat (List.length cs) <= 10000 ->
  total_cents cs <= 100000000000 ->
  round2 (float_sum l) = cents_float (total_cents cs).
Proof.
  intros Hl Hk Ht.
  destruct Hl as [|x c l cs Hx Hl]; [reflexivity|].
  pose proof (Forall2_cons _ _ Hx Hl) as Hall.
  destruct (fold_add_near _ _ Hall zero 0 0 eq_refl ltac:(lia) ltac:(lia)
              ltac:(simpl; lia) ltac:(lia) ltac:(lia)) as [G E].
  fold (float_sum (x :: l)) in G, E.
  rewrite !Z.add_0_l in E.
  pose proof (total_cents_nonneg _ _ Hl) as Hcs.
  destruct Hx as (Hc & _).
  change (total_cents (c :: cs)) with (c + total_cents cs) in *.
  assert (Hn1 : 1 <= c + total_cents cs) by lia.
  forget (c + total_cents cs) as n.
  pose proof unit_value_half_ulp as Hu. pose proof half_ulp_pos as Hh.
  pose proof overflow_value_large as Hov.
  change (2 ^ 31) with 2147483648 in Hov.
  assert (Hkh : Z.of_nat (List.length (c :: cs)) * half_ulp
                <= 10000 * half_ulp)
    by (apply Z.mul_le_mono_nonneg_r; lia).
  assert (Hnu : 1 * unit_value <= n * unit_value
                      <= 100000000000 * unit_value)
    by (split; apply Z.mul_le_mono_nonneg_r; lia).
  assert (Hval : 0 < xval (float_sum (x :: l)) < overflow_value).
  { replace (200 * Z.of_nat (List.length (c :: cs)) * half_ulp)
      with (200 * (Z.of_nat (List.length (c :: cs)) * half_ulp)) in E by ring.
    forget (Z.of_nat (List.length (c :: cs)) * half_ulp) as kh.
    forget (n * unit_value) as nu. lia. }
  destruct (good_finite_value _ G Hval) as (m & e & Ef & He).
  rewrite Ef in *. simpl in E. unfold round2.
  rewrite (hundredths_of_near m e n (Z.of_nat (List.length (c :: cs))))
    by (try assumption; lia).
  unfold cents_float, of_decimal. destruct n as [|q|q]; try lia.
  reflexivity.
Qed.

End ExactSums.

Module ExactTotals.

Import PyFloat FloatFacts ExactSums.

Lemma nearest_sign (n d : Z) :
  gt0 (nearest true n d) = false.
Proof.
  unfold nearest, binary_round_aux.
  destruct (SFdiv_core_binary prec emax n 0 d 0) as [[mz ez] lz].
  destruct (shr_fexp prec emax mz ez lz) as [mrs e'].
  destruct (shr_fexp prec emax _ e' loc_Exact) as [mrs' e''].
  destruct (shr_m mrs'); try reflexivity.
  now destruct (e'' <=? emax - prec).
Qed.

Lemma gt0_cents_float (c : Z) : gt0 (cents_float c) = (0 <? c).
Proof.
  unfold cents_float, of_decimal. destruct c as [|q|q].
  - reflexivity.
  - change (10 ^ 2) with 100. change (0 <? Zpos q) with true.
    destruct (nearest_spec q) as [G V].
    apply good_positive_gt0; [exact G|]. rewrite V.
    destruct (hundred_pre (Zpos q) ltac:(lia)) as [P1 P2].
    assert (Hmin : emin <= -60) by (unfold emin; lia).
    pose proof (rounded_bounds _ 100 (-60) (conj eq_refl P1) Hmin P2)
      as [Blo _].
    pose proof overflow_value_pos.
    assert (0 < 2 ^ (mag (Zpos q * 2 ^ 60) 100 (-60) - 1 - emin)).
    { destruct (mantissa_bounds _ 100 (-60) (conj eq_refl P1) Hmin P2)
        as (Hge & _).
      pose proof (fexp_eq (mag (Zpos q * 2 ^ 60) 100 (-60))) as Hf.
      apply pow2_pos. unfold emin in *.
      remember (mag (Zpos q * 2 ^ 60) 100 (-60)) as g eqn:E; clear E.
      remember (fexp prec emax g) as e' eqn:E; clear E. lia. }
    lia.
  - apply nearest_sign.
Qed.

Lemma terms_of_cents (p : date -> bool) (entries : list (Z * date)) :
  map amount
    (filter (fun t => p (date_of t))
       (spending_transactions (map of_cents entries)))
  = map cents_float
      (map fst (filter (fun e => (0 <? fst e) && p (snd e)) entries)).
Proof.
  unfold spending_transactions.
  rewrite !filter_map_commute, filter_filter_and, !map_map.
  f_equal. apply filter_ext. intros e. simpl.
  now rewrite gt0_cents_float.
Qed.

Lemma near_cents_all (cs : list Z) :
  Forall (fun c => 0 < c) cs -> total_cents cs <= 100000000000 ->
  Forall2 near_cents (map cents_float cs) cs.
Proof.
  induction 1 as [|c cs Hc Hcs IH]; intros Ht; simpl; constructor.
  - apply cents_float_near.
    assert (0 <= total_cents cs).
    { clear -Hcs. induction Hcs as [|c cs Hc _ IH]; simpl; [lia|].
      change (fold_right Z.add 0 cs) with (total_cents cs). lia. }
    change (total_cents (c :: cs)) with (c + total_cents cs) in Ht. lia.
  - apply IH.
    change (total_cents (c :: cs)) with (c + total_cents cs) in Ht. lia.
Qed.

Lemma selected_cents (p : date -> bool) (entries : list (Z * date)) :
  Forall (fun c => 0 < c)
    (map fst (filter (fun e => (0 <? fst e) && p (snd e)) entries))
  /\ cents_in p entries <= cents_in (fun _ => true) entries
  /\ Z.of_nat
       (List.length
          (map fst (filter (fun e => (0 <? fst e) && p (snd e)) entries)))
     <= Z.of_nat (List.length entries).
Proof.
  unfold cents_in.
  induction entries as [|[c d] entries (IH1 & IH2 & IH3)].
  - repeat split; [constructor|simpl; lia|simpl; lia].
  - cbn [filter fst snd]. rewrite andb_true_r.
    change (List.length ((c, d) :: entries)) with (S (List.length entries)).
    rewrite Nat2Z.inj_succ.
    destruct (Z.ltb_spec 0 c) as [Hc|Hc]; cbn [andb].
    + assert (E : forall l, total_cents (map fst ((c, d) :: l))
                            = c + total_cents (map fst l)) by reflexivity.
      rewrite E.
      destruct (p d).
      * rewrite E. cbn [map List.length fst]. rewrite Nat2Z.inj_succ.
        repeat split; [now constructor|lia|lia].
      * repeat split; [exact IH1|lia|lia].
    + repeat split; [exact IH1|exact IH2|lia].
Qed.

Lemma window_total_exact (p : date -> bool) (entries : list (Z * date)) :
  Z.of_nat (List.length entries) <= 10000 ->
  cents_in (fun _ => true) entries <= 100000000000 ->
  round2
    (float_sum
       (map amount
          (filter (fun t => p (date_of t))
             (spending_transactions (map of_cents entries)))))
  = cents_float (cents_in p entries).
Proof.
  intros Hk Ht. rewrite terms_of_cents.
  destruct (selected_cents p entries) as (Hpos & Hle & Hlen).
  unfold cents_in in *.
  apply round2_sum_near.
  - apply near_cents_all; [exact Hpos|]. lia.
  - lia.
  - lia.
Qed.

Lemma spending_of_cents (today : date) (entries : list (Z * date))
  (Hcount : Z.of_nat (List.length entries) <= 10000)
  (Htotal : cents_in (fun _ => true) entries <= 100000000000) :
  spending today (map of_cents entries)
  = {| daily :=
         cents_float (cents_in (fun d => yesterday today <=? d) entries);
       weekly :=
         cents_float (cents_in (fun d => week_ago today <=? d) entries);
       monthly := cents_float (cents_in (fun _ => true) entries) |}.
Proof.
  destruct (spending_fields today (map of_cents entries)) as (D & W & M).
  destruct (spending today (map of_cents entries)) as [d w m].
  simpl in D, W, M. subst d w m.
  unfold daily_terms, weekly_terms, monthly_terms.
  rewrite <- (filter_all (spending_transactions (map of_cents entries))) at 3.
  rewrite (window_total_exact
             (fun d => yesterday today <=? d) entries Hcount Htotal).
  rewrite (window_total_exact
             (fun d => week_ago today <=? d) entries Hcount Htotal).
  rewrite (window_total_exact (fun _ => true) entries Hcount Htotal).
  reflexivity.
Qed.

End ExactTotals.

(** X7: for at most ten thousand transactions whose amounts are decimals with
    two digits after the point and whose positive amounts total at most
    one billion, each field of the response is the float nearest to the
    exact decimal total of its window. *)
Theorem decimal_totals_exact (today : date) (entries : list (Z * date))
  (Hcount : Z.of_nat (List.length entries) <= 10000)
  (Htotal : cents_in (fun _ => true) entries <= 100000000000) :
  spending today (map of_cents entries)
  = {| daily :=
         cents_float (cents_in (fun d => yesterday today <=? d) entries);
       weekly :=
         cents_float (cents_in (fun d => week_ago today <=? d) entries);
       monthly := cents_float (cents_in (fun _ => true) entries) |}.
Proof.
  destruct (spending_fields today (map of_cents entries)) as (D & W & M).
  destruct (spending today (map of_cents entries)) as [d w m].
  simpl in D, W, M. subst d w m.
  unfold daily_terms, weekly_terms, monthly_terms.
  rewrite <- (filter_all (spending_transactions (map of_cents entries))) at 3.
  rewrite (ExactTotals.window_total_exact
             (fun d => yesterday today <=? d) entries Hcount Htotal).
  rewrite (ExactTotals.window_total_exact
             (fun d => week_ago today <=? d) entries Hcount Htotal).
  rewrite (ExactTotals.window_total_exact (fun _ => true) entries Hcount Htotal).
  reflexivity.
Qed.

Lemma decimal_totals_exact_witness :
  spending example_today (map of_cents example_entries)
  = {| daily := cents_float 2233;
       weekly := cents_float 4233;
       monthly := cents_float 14233 |}.
Proof.
  exact (decimal_totals_exact example_today example_entries
           ltac:(vm_compute; discriminate) ltac:(vm_compute; discriminate)).
Defined.

Lemma cents_in_permutation (p : date -> bool) (l l' : list (Z * date)) :
  Permutation l l' -> cents_in p l = cents_in p l'.
Proof.
  unfold cents_in, total_cents.
  induction 1 as [|e l l' _ IH|e e' l|l l' l'' _ IH1 _ IH2]; simpl.
  - reflexivity.
  - destruct ((0 <? fst e) && p (snd e)); simpl; now rewrite IH.
  - destruct ((0 <? fst e) && p (snd e));
      destruct ((0 <? fst e') && p (snd e')); simpl; lia.
  - now rewrite IH1.
Qed.

(** X8: within the same bounds the order of the transactions does not matter,
    although binary64 addition is not associative. *)
Theorem decimal_totals_any_order (today : date)
  (entries entries' : list (Z * date))
  (Hperm : Permutation entries entries')
  (Hcount : Z.of_nat (List.length entries) <= 10000)
  (Htotal : cents_in (fun _ => true) entries <= 100000000000) :
  spending today (map of_cents entries')
  = spending today (map of_cents entries).
Proof.
  rewrite (ExactTotals.spending_of_cents today entries Hcount Htotal).
  rewrite (ExactTotals.spending_of_cents today entries').
  - now rewrite !(cents_in_permutation _ _ _ Hperm).
  - now rewrite <- (Permutation_length Hperm).
  - now rewrite <- (cents_in_permutation _ _ _ Hperm).
Qed.

Lemma decimal_totals_any_order_witness :
  spending example_today (map of_cents (rev example_entries))
  = spending example_today (map of_cents example_entries).
Proof.
  exact (decimal_totals_any_order example_today example_entries
           (rev example_entries) (Permutation_rev example_entries)
           ltac:(vm_compute; discriminate) ltac:(vm_compute; discriminate)).
Defined.
